(** * RelationsService (api/src/services/relations.ts)

    A shallow embedding of the relations service: the access filter
    [filterForbidden], the read operations [readAll] and [readOne], the
    mutations [createOne], [updateOne] and [deleteOne], and the MySQL
    type fix [alterType].

    Collaborators whose code is not part of the service (the schema
    snapshot, the permission oracle, the stitcher, the constraint naming
    function) are taken as interfaces; the database is a small store of
    foreign keys, metadata rows and column types. *)

From stdpp Require Import gmap strings list fin_maps.

#[local] Set Warnings "-clear-no-such-hyp".

(** ** JavaScript values *)

(** [x && ...] on a [string | null | undefined]: the empty string is
    falsy, like [null] and [undefined]. *)
Definition truthy (o : option string) : option string :=
  match o with
  | Some s => if bool_decide (s = "") then None else Some s
  | None => None
  end.

(** [Array.prototype.includes] on strings. *)
Definition includes (x : string) (l : list string) : bool :=
  bool_decide (x ∈ l).

(** [Array.prototype.every]. *)
Definition every {A} (p : A → bool) (l : list A) : bool := forallb p l.

(** [Array.prototype.find] and [Array.prototype.filter] are [List.find]
    and [List.filter]. *)

(** A property key: [undefined] used as a key or inside a template
    string reads "undefined". *)
Definition key (o : option string) : string := default "undefined" o.

(** ** Data model (@directus/shared/types) *)

Record ForeignKey := {
  table : string;
  column : string;
  foreign_key_table : string;
  foreign_key_column : string;
  constraint_name : option string;
  on_delete : option string;
}.

Record RelationMeta := {
  id : nat;
  many_collection : string;
  many_field : string;
  one_collection : option string;
  one_field : option string;
  one_collection_field : option string;
  one_allowed_collections : option (list string);
  junction_field : option string;
  sort_field : option string;
}.

Record Relation := {
  collection : string;
  field : string;
  related_collection : option string;
  schema : option ForeignKey;
  meta : option RelationMeta;
}.

(** [Partial<RelationMeta>]: [None] is an absent key. *)
Record PartialRelationMeta := {
  p_id : option nat;
  p_many_collection : option string;
  p_many_field : option string;
  p_one_collection : option (option string);
  p_one_field : option (option string);
  p_one_collection_field : option (option string);
  p_one_allowed_collections : option (option (list string));
  p_junction_field : option (option string);
  p_sort_field : option (option string);
}.

(** [Partial<Relation>], the payload of [createOne] and [updateOne]. Of
    [relation.schema] only [on_delete] is ever read. *)
Record PartialRelation := {
  r_collection : option string;
  r_field : option string;
  r_related_collection : option string;
  r_schema_on_delete : option string;
  r_meta : option PartialRelationMeta;
}.

Record Permission := {
  action : string;
  perm_collection : string;
  fields : option (list string);
}.

Record Accountability := {
  admin : option bool;
  permissions : option (list Permission);
}.

Record FieldOverview := { dbType : option string }.

Record CollectionOverview := { primary : string }.

(** The schema snapshot [this.schema], by its methods.
    [getRelationsForCollection] gives the [Object.values] of the
    object the method returns. *)
Record SchemaOverview := {
  getCollections : gmap string CollectionOverview;
  getFields : string → gmap string FieldOverview;
  getRelationsForCollection : string → list Relation;
  hasCollection : string → bool;
  hasField : string → string → bool;
  getCollection : string → option CollectionOverview;
  getField : string → string → option FieldOverview;
  getPrimaryKeyField : string → option FieldOverview;
  getRelationsForField : string → string → option Relation;
}.

Inductive Exception :=
  | ForbiddenException
  | InvalidPayloadException (message : string)
  | TypeError
  | DatabaseError (message : string).

Inductive Result (A : Type) :=
  | Ok (a : A)
  | Throw (e : Exception).
Arguments Ok {A} a.
Arguments Throw {A} e.

(** ** The store and the effects *)

(** What the service does outside the database. *)
Inductive Event :=
  | PreColumnChange
  | Transaction
  | PostColumnChange
  | SetHashFull (cache_key : string) (value : bool)
  | ClearRelationsForField (coll fld : string).

(** The database and the log of effects. [transactional_ddl] tells
    whether this database undoes schema statements when a transaction is
    rolled back (PostgreSQL does; MySQL commits each schema statement as
    it runs). *)
Record World := {
  foreign_keys : list ForeignKey;
  directus_relations : list RelationMeta;
  column_types : gmap (string * string) string;
  transactional_ddl : bool;
  log : list Event;
}.

Definition set_foreign_keys (fks : list ForeignKey) (w : World) : World :=
  {| foreign_keys := fks; directus_relations := directus_relations w;
     column_types := column_types w; transactional_ddl := transactional_ddl w;
     log := log w |}.

Definition set_directus_relations (rows : list RelationMeta) (w : World) : World :=
  {| foreign_keys := foreign_keys w; directus_relations := rows;
     column_types := column_types w; transactional_ddl := transactional_ddl w;
     log := log w |}.

Definition set_column_types (tys : gmap (string * string) string) (w : World) : World :=
  {| foreign_keys := foreign_keys w; directus_relations := directus_relations w;
     column_types := tys; transactional_ddl := transactional_ddl w; log := log w |}.

Definition set_log (l : list Event) (w : World) : World :=
  {| foreign_keys := foreign_keys w; directus_relations := directus_relations w;
     column_types := column_types w; transactional_ddl := transactional_ddl w;
     log := l |}.

(** An [async] method: it reads and writes the store, and returns or
    throws. *)
Definition M (A : Type) : Type := World → Result A * World.

#[export] Instance M_ret : MRet M := λ A a w, (Ok a, w).

#[export] Instance M_bind : MBind M := λ A B f m w,
  match m w with
  | (Ok a, w') => f a w'
  | (Throw e, w') => (Throw e, w')
  end.

Definition throw {A} (e : Exception) : M A := λ w, (Throw e, w).

Definition get_world : M World := λ w, (Ok w, w).

Definition emit (ev : Event) : M unit := λ w, (Ok tt, set_log (log w ++ [ev]) w).

(** [if (cond) throw e] *)
Definition throw_if (cond : bool) (e : Exception) : M unit :=
  if cond then throw e else mret tt.

(** A value that must be truthy, [e] thrown otherwise. *)
Definition required {A} (o : option A) (e : Exception) : M A :=
  match o with
  | Some a => mret a
  | None => throw e
  end.

(** [try { body } finally { finalizer }]: the finalizer runs on both
    outcomes of the body; the body's outcome is the statement's, unless
    the finalizer itself throws. *)
Definition try_finally {A} (body : M A) (finalizer : M unit) : M A := λ w,
  let '(r, w1) := body w in
  match finalizer w1 with
  | (Ok _, w2) => (r, w2)
  | (Throw e, w2) => (Throw e, w2)
  end.

(** [knex.transaction(body)]: when the body throws, the transaction is
    rolled back. The rows written to directus_relations are undone; the
    schema statements are undone on a database with transactional
    schema statements, and stay on one that commits them as they run.
    (In the three mutations the write to directus_relations is the
    last statement, so a throw leaves no row to undo.) *)
Definition rollback (before after : World) : World :=
  {| foreign_keys :=
       if transactional_ddl before then foreign_keys before else foreign_keys after;
     directus_relations := directus_relations before;
     column_types :=
       if transactional_ddl before then column_types before else column_types after;
     transactional_ddl := transactional_ddl before;
     log := log after |}.

Definition transaction {A} (body : M A) : M A := λ w,
  let w0 := set_log (log w ++ [Transaction]) w in
  match body w0 with
  | (Ok a, w') => (Ok a, w')
  | (Throw e, w') => (Throw e, rollback w0 w')
  end.

(** *** knex table builder *)

Inductive TableOp :=
  | DropForeign (col : string) (name : string)
  | SpecificTypeAlter (col : string) (type : string)
  | Foreign (col : string) (name : option string)
            (references_table references_column : string) (onDelete : option string).

(** The name knex gives a foreign key created without one. *)
Definition knex_foreign_name (tbl col : string) : string := tbl +:+ "_" +:+ col +:+ "_foreign".

Definition has_constraint (tbl name : string) (fk : ForeignKey) : bool :=
  bool_decide (table fk = tbl) && bool_decide (constraint_name fk = Some name).

Definition run_op (tbl : string) (op : TableOp) : M unit := λ w,
  match op with
  | DropForeign col name =>
      if existsb (has_constraint tbl name) (foreign_keys w)
      then (Ok tt, set_foreign_keys
                     (List.filter (λ fk, negb (has_constraint tbl name fk)) (foreign_keys w)) w)
      else (Throw (DatabaseError "constraint does not exist"), w)
  | SpecificTypeAlter col type =>
      match column_types w !! (tbl, col) with
      | Some _ => (Ok tt, set_column_types (<[(tbl, col) := type]> (column_types w)) w)
      | None => (Throw (DatabaseError "column does not exist"), w)
      end
  | Foreign col name rt rc od =>
      let name := default (knex_foreign_name tbl col) (truthy name) in
      if existsb (λ fk, bool_decide (constraint_name fk = Some name)) (foreign_keys w)
      then (Throw (DatabaseError "constraint already exists"), w)
      else (Ok tt, set_foreign_keys
                     (foreign_keys w ++
                        [{| table := tbl; column := col; foreign_key_table := rt;
                            foreign_key_column := rc; constraint_name := Some name;
                            on_delete := od |}]) w)
  end.

Fixpoint run_ops (tbl : string) (ops : list TableOp) : M unit :=
  match ops with
  | [] => mret tt
  | op :: ops' => run_op tbl op ;; run_ops tbl ops'
  end.

(** The callback handed to [alterTable]. knex calls it once,
    synchronously, and compiles the statements the builder holds when
    that call returns. An [async] callback returns at its first
    [await]: the statements it adds before are [before_await]; what it
    adds afterwards, or the error it then throws, is [after_await], and
    reaches neither the database nor the caller, since knex does not
    wait for the promise. *)
Record Callback := {
  before_await : list TableOp;
  after_await : Result (list TableOp);
}.

(** [trx.schema.alterTable(tbl, callback)]: the statements the builder
    holds when the callback returns run in the order they were added. *)
Definition alterTable (tbl : string) (callback : Callback) : M unit :=
  run_ops tbl (before_await callback).

(** *** schema inspector and the directus_relations items *)

(** [schemaInspector.foreignKeys(table?)] *)
Definition foreignKeys (tbl : option string) (w : World) : list ForeignKey :=
  match truthy tbl with
  | Some t => List.filter (λ fk, bool_decide (table fk = t)) (foreign_keys w)
  | None => foreign_keys w
  end.

Definition fresh_id (rows : list RelationMeta) : nat :=
  S (foldr (λ row n, Nat.max (id row) n) 0 rows).

(** [ItemsService('directus_relations').createOne(payload)]: both
    [many_collection] and [many_field] are NOT NULL columns. *)
Definition items_createOne (payload : PartialRelationMeta) : M unit := λ w,
  match p_many_collection payload, p_many_field payload with
  | Some mc, Some mf =>
      let rows := directus_relations w in
      let new_id := default (fresh_id rows) (p_id payload) in
      if existsb (λ row, bool_decide (id row = new_id)) rows
      then (Throw (DatabaseError "duplicate primary key"), w)
      else (Ok tt, set_directus_relations
                     (rows ++
                        [{| id := new_id; many_collection := mc; many_field := mf;
                            one_collection := default None (p_one_collection payload);
                            one_field := default None (p_one_field payload);
                            one_collection_field := default None (p_one_collection_field payload);
                            one_allowed_collections :=
                              default None (p_one_allowed_collections payload);
                            junction_field := default None (p_junction_field payload);
                            sort_field := default None (p_sort_field payload) |}]) w)
  | _, _ => (Throw (DatabaseError "null value in a NOT NULL column"), w)
  end.

Definition apply_patch (patch : PartialRelationMeta) (row : RelationMeta) : RelationMeta :=
  {| id := default (id row) (p_id patch);
     many_collection := default (many_collection row) (p_many_collection patch);
     many_field := default (many_field row) (p_many_field patch);
     one_collection := default (one_collection row) (p_one_collection patch);
     one_field := default (one_field row) (p_one_field patch);
     one_collection_field := default (one_collection_field row) (p_one_collection_field patch);
     one_allowed_collections :=
       default (one_allowed_collections row) (p_one_allowed_collections patch);
     junction_field := default (junction_field row) (p_junction_field patch);
     sort_field := default (sort_field row) (p_sort_field patch) |}.

(** [ItemsService('directus_relations').updateOne(key, patch)]: the
    patch is applied to the row with that key; a patch that gives the
    row an id another row holds is refused, as a second row with that
    id is on insert. *)
Definition items_updateOne (k : nat) (patch : PartialRelationMeta) : M unit := λ w,
  let rows := directus_relations w in
  let clash :=
    match p_id patch with
    | Some new_id =>
        negb (bool_decide (new_id = k))
        && existsb (λ row, bool_decide (id row = k)) rows
        && existsb (λ row, bool_decide (id row = new_id)) rows
    | None => false
    end in
  if clash then (Throw (DatabaseError "duplicate primary key"), w)
  else (Ok tt, set_directus_relations
                 (map (λ row, if bool_decide (id row = k) then apply_patch patch row else row)
                      rows) w).

(** [trx('directus_relations').delete().where({ many_collection, many_field })] *)
Definition delete_where (coll fld : string) : M unit := λ w,
  (Ok tt, set_directus_relations
            (List.filter (λ row, negb (bool_decide (many_collection row = coll)
                                       && bool_decide (many_field row = fld)))
                         (directus_relations w)) w).

(** [readByQuery] with a filter on [many_collection] and, for
    [readOne], on [many_field] with [limit: 1]. *)
Definition readByQuery_collection (coll : option string) (w : World) : list RelationMeta :=
  match truthy coll with
  | Some c => List.filter (λ row, bool_decide (many_collection row = c)) (directus_relations w)
  | None => directus_relations w
  end.

Definition readByQuery_field (coll fld : string) (w : World) : list RelationMeta :=
  take 1 (List.filter (λ row, bool_decide (many_collection row = coll)
                              && bool_decide (many_field row = fld))
                      (directus_relations w)).

#[export] Instance Result_ret : MRet Result := λ A a, Ok a.

#[export] Instance Result_bind : MBind Result := λ A B f r,
  match r with
  | Ok a => f a
  | Throw e => Throw e
  end.

(** A name between double quotes, as the messages print it. *)
Definition quoted (s : string) : string :=
  let dq := String (Ascii.ascii_of_nat 34) "" in dq +:+ s +:+ dq.

(** [{}] *)
Definition empty_meta : PartialRelationMeta :=
  {| p_id := None; p_many_collection := None; p_many_field := None;
     p_one_collection := None; p_one_field := None; p_one_collection_field := None;
     p_one_allowed_collections := None; p_junction_field := None; p_sort_field := None |}.

(** [{ ...meta, many_collection, many_field, one_collection }]; an
    [undefined] [many_collection] or [many_field] leaves no value for
    the column. *)
Definition merge_meta (m : PartialRelationMeta)
    (many_coll many_fld : option string) (one_coll : option string) : PartialRelationMeta :=
  {| p_id := p_id m;
     p_many_collection := many_coll;
     p_many_field := many_fld;
     p_one_collection := Some one_coll;
     p_one_field := p_one_field m;
     p_one_collection_field := p_one_collection_field m;
     p_one_allowed_collections := p_one_allowed_collections m;
     p_junction_field := p_junction_field m;
     p_sort_field := p_sort_field m |}.

(** ** The service *)

Record RelationsService := {
  accountability : option Accountability;
  this_schema : SchemaOverview;
  (** what [helpers.schema.preColumnChange()] answers on this backend *)
  preColumnChange_result : bool;
}.

Section Service.

(** [PermissionsService.getAllowedFields(action)] of the service built
    for the given accountability. *)
Context (getAllowedFields : option Accountability → string → gmap string (list string)).

(** [hasReadAccess] *)
Definition hasReadAccess (this : RelationsService) : bool :=
  match accountability this with
  | Some a =>
      match permissions a with
      | Some ps =>
          bool_decide (is_Some (List.find (λ permission,
            bool_decide (perm_collection permission = "directus_relations")
            && bool_decide (action permission = "read")) ps))
      | None => false
      end
  | None => false
  end.

Definition allowedCollections (a : Accountability) : list string :=
  match permissions a with
  | Some ps =>
      map perm_collection (List.filter (λ permission, bool_decide (action permission = "read")) ps)
  | None => []
  end.

(** The callback of [relations.filter] in [filterForbidden]. *)
Definition filterForbidden_callback
    (allowedCollections : list string) (allowedFields : gmap string (list string))
    (relation : Relation) : bool :=
  let collectionsAllowed := true in
  let fieldsAllowed := true in
  let collectionsAllowed :=
    if negb (includes (collection relation) allowedCollections) then false
    else collectionsAllowed in
  let collectionsAllowed :=
    match truthy (related_collection relation) with
    | Some related =>
        if negb (includes related allowedCollections) then false else collectionsAllowed
    | None => collectionsAllowed
    end in
  let collectionsAllowed :=
    match meta relation ≫= one_allowed_collections with
    | Some cs =>
        if negb (every (λ c, includes c allowedCollections) cs) then false
        else collectionsAllowed
    | None => collectionsAllowed
    end in
  let fieldsAllowed :=
    match allowedFields !! collection relation with
    | None => false
    | Some fs =>
        if negb (includes "*" fs) && negb (includes (field relation) fs) then false
        else fieldsAllowed
    end in
  let fieldsAllowed :=
    match truthy (related_collection relation), truthy (meta relation ≫= one_field) with
    | Some related, Some reverse =>
        match allowedFields !! related with
        | None => false
        | Some fs =>
            if negb (includes "*" fs) && negb (includes reverse fs) then false
            else fieldsAllowed
        end
    | _, _ => fieldsAllowed
    end in
  collectionsAllowed && fieldsAllowed.

(** [filterForbidden]; [toArray] is the identity on an array. *)
Definition filterForbidden (this : RelationsService) (relations : list Relation) : list Relation :=
  match accountability this with
  | None => relations
  | Some a =>
      if bool_decide (admin a = Some true) then relations
      else
        let allowedCollections := allowedCollections a in
        let allowedFields := getAllowedFields (accountability this) "read" in
        List.filter (filterForbidden_callback allowedCollections allowedFields) relations
  end.

(** [stitchRelations(metaRows, schemaRows)] (utils/stitch-relations). *)
Context (stitchRelations : list RelationMeta → list ForeignKey → list Relation).

(** The built-in rows (database/system-data/relations). *)
Context (systemRelationRows : list RelationMeta).

(** [getDefaultIndexName(type, collection, field)] (utils/get-default-index-name). *)
Context (getDefaultIndexName : string → string → string → string).

(** [this.accountability && this.accountability.admin !== true] *)
Definition not_admin (this : RelationsService) : bool :=
  match accountability this with
  | Some a => negb (bool_decide (admin a = Some true))
  | None => false
  end.

(** [alterType(table, relation)]: the statements it adds to the table
    builder; reading [dbType] of a missing field is a TypeError. It is
    an [async] method that awaits both lookups before it adds
    anything. *)
Definition alterType (this : RelationsService) (relation : PartialRelation)
    : Result (list TableOp) :=
  match getField (this_schema this) (key (r_collection relation)) (key (r_field relation)) with
  | None => Throw TypeError
  | Some m2oField =>
      let m2oFieldDBType := dbType m2oField in
      match getPrimaryKeyField (this_schema this) (key (r_related_collection relation)) with
      | None => Throw TypeError
      | Some relatedField =>
          let relatedFieldDBType := dbType relatedField in
          if negb (bool_decide (m2oFieldDBType = relatedFieldDBType))
             && bool_decide (m2oFieldDBType = Some "int")
             && bool_decide (relatedFieldDBType = Some "int unsigned")
          then Ok [SpecificTypeAlter (key (r_field relation)) "int unsigned"]
          else Ok []
      end
  end.

(** [readAll(collection?)] *)
Definition readAll (this : RelationsService) (coll : option string) : M (list Relation) :=
  throw_if (not_admin this && negb (hasReadAccess this)) ForbiddenException ;;
  w ← get_world;
  let metaRows :=
    List.filter
      (λ metaRow,
         match truthy coll with
         | None => true
         | Some c => bool_decide (many_collection metaRow = c)
         end)
      (readByQuery_collection coll w ++ systemRelationRows) in
  let schemaRows := foreignKeys coll w in
  let results := stitchRelations metaRows schemaRows in
  mret (filterForbidden this results).

(** The permission checks at the head of [readOne]. *)
Definition readOne_check (this : RelationsService) (coll fld : string) : M unit :=
  match accountability this with
  | Some a =>
      if bool_decide (admin a = Some true) then mret tt
      else
        throw_if (negb (hasReadAccess this)) ForbiddenException ;;
        let permissions :=
          permissions a ≫=
            List.find (λ permission,
                         bool_decide (action permission = "read")
                         && bool_decide (perm_collection permission = coll)) in
        allowedFields ← required (permissions ≫= fields) ForbiddenException;
        throw_if (negb (includes "*" allowedFields) && negb (includes fld allowedFields))
                 ForbiddenException
  | None => mret tt
  end.

(** What [readOne] has left after stitching and filtering. *)
Definition readOne_results (this : RelationsService) (coll fld : string) (w : World)
    : list Relation :=
  let metaRow := readByQuery_field coll fld w in
  let schemaRow :=
    List.find (λ foreignKey, bool_decide (column foreignKey = fld)) (foreignKeys (Some coll) w) in
  let stitched :=
    stitchRelations metaRow (match schemaRow with Some row => [row] | None => [] end) in
  filterForbidden this stitched.

(** [readOne(collection, field)] *)
Definition readOne (this : RelationsService) (coll fld : string) : M Relation :=
  readOne_check this coll fld ;;
  w ← get_world;
  match readOne_results this coll fld w with
  | [] => throw ForbiddenException
  | result :: _ => mret result
  end.

(** The [finally] block of [createOne]. *)
Definition createOne_finally (runPostColumnChange : bool) (relation : PartialRelation) : M unit :=
  (if runPostColumnChange then emit PostColumnChange else mret tt) ;;
  emit (SetHashFull ("relations:" +:+ key (r_collection relation)) false).

(** The callback of [alterTable] in [createOne], an [async] function
    that starts with [await this.alterType(table, relation)]:
    [alterType] itself awaits [getField] before it touches the table,
    so the callback returns to knex with an empty builder; the type
    change and the foreign key are added after that. *)
Definition createOne_alter (this : RelationsService) (relation : PartialRelation)
    (coll fld related : string) : Callback :=
  {| before_await := [];
     after_await :=
       ops ← alterType this relation;
       let constraintName := getDefaultIndexName "foreign" coll fld in
       match getCollections (this_schema this) !! related with
       | None => Throw TypeError
       | Some relatedOverview =>
           Ok (ops ++ [Foreign fld (Some constraintName) related (primary relatedOverview)
                               (truthy (r_schema_on_delete relation))])
       end |}.

(** The body of the transaction of [createOne]. *)
Definition createOne_transaction (this : RelationsService) (relation : PartialRelation)
    (coll fld : string) (metaRow : PartialRelationMeta) : M unit :=
  match truthy (r_related_collection relation) with
  | Some related => alterTable coll (createOne_alter this relation coll fld related)
  | None => mret tt
  end ;;
  items_createOne metaRow.

(** The validation at the head of [createOne]; it returns the truthy
    collection and field names. *)
Definition createOne_validate (this : RelationsService) (relation : PartialRelation)
    : M (string * string) :=
  throw_if (not_admin this) ForbiddenException ;;
  coll ← required (truthy (r_collection relation))
           (InvalidPayloadException (quoted "collection" +:+ " is required"));
  fld ← required (truthy (r_field relation))
          (InvalidPayloadException (quoted "field" +:+ " is required"));
  let collections := getCollections (this_schema this) in
  throw_if (negb (bool_decide (is_Some (collections !! coll))))
           (InvalidPayloadException ("Collection " +:+ quoted coll +:+ " doesn't exist")) ;;
  let fields := getFields (this_schema this) coll in
  throw_if (negb (bool_decide (is_Some (fields !! fld))))
           (InvalidPayloadException
              ("Field " +:+ quoted fld +:+ " doesn't exist in collection " +:+ quoted coll)) ;;
  collectionOverview ← required (collections !! coll) TypeError;
  throw_if (bool_decide (primary collectionOverview = fld))
           (InvalidPayloadException
              ("Field " +:+ quoted fld +:+ " in collection " +:+ quoted coll
               +:+ " is a primary key")) ;;
  throw_if (match truthy (r_related_collection relation) with
            | Some related => negb (bool_decide (is_Some (collections !! related)))
            | None => false
            end)
           (InvalidPayloadException
              ("Collection " +:+ quoted (key (r_related_collection relation))
               +:+ " doesn't exist")) ;;
  let existingRelation :=
    List.find (λ existingRelation, bool_decide (field existingRelation = fld))
              (getRelationsForCollection (this_schema this) coll) in
  throw_if (bool_decide (is_Some existingRelation))
           (InvalidPayloadException
              ("Field " +:+ quoted fld +:+ " in collection " +:+ quoted coll
               +:+ " already has an associated relationship")) ;;
  mret (coll, fld).

(** [createOne(relation)] *)
Definition createOne (this : RelationsService) (relation : PartialRelation) : M unit :=
  '(coll, fld) ← createOne_validate this relation;
  emit PreColumnChange ;;
  let runPostColumnChange := preColumnChange_result this in
  try_finally
    (let metaRow :=
       merge_meta (default empty_meta (r_meta relation))
                  (r_collection relation) (r_field relation)
                  (truthy (r_related_collection relation)) in
     transaction (createOne_transaction this relation coll fld metaRow))
    (createOne_finally runPostColumnChange relation).

(** The checks at the head of [updateOne] and [deleteOne]; they return
    the existing relation. *)
Definition existing_relation (this : RelationsService) (coll fld : string) : M Relation :=
  throw_if (not_admin this) ForbiddenException ;;
  throw_if (negb (hasCollection (this_schema this) coll))
           (InvalidPayloadException ("Collection " +:+ quoted coll +:+ " doesn't exist")) ;;
  throw_if (negb (hasField (this_schema this) coll fld))
           (InvalidPayloadException
              ("Field " +:+ quoted fld +:+ " doesn't exist in collection " +:+ quoted coll)) ;;
  required (getRelationsForField (this_schema this) coll fld)
           (InvalidPayloadException
              ("Field " +:+ quoted fld +:+ " in collection " +:+ quoted coll
               +:+ " doesn't have a relationship.")).

(** The [finally] block of [updateOne] and of [deleteOne]. *)
Definition clear_finally (runPostColumnChange : bool) (coll fld : string) : M unit :=
  (if runPostColumnChange then emit PostColumnChange else mret tt) ;;
  emit (ClearRelationsForField coll fld).

(** The callback of [alterTable] in [updateOne], an [async] function:
    it drops the existing foreign key, then awaits [alterType]; the
    type change and the new foreign key are added after that
    [await]. *)
Definition updateOne_alter (this : RelationsService) (coll fld : string)
    (relation : PartialRelation) (existingRelation : Relation) (related : string)
    : Callback :=
  let constraintName := getDefaultIndexName "foreign" coll fld in
  let '(constraintName, dropped) :=
    match schema existingRelation with
    | Some existingSchema =>
        let constraintName := default constraintName (truthy (constraint_name existingSchema)) in
        (constraintName, [DropForeign fld constraintName])
    | None => (constraintName, [])
    end in
  {| before_await := dropped;
     after_await :=
       ops ← alterType this relation;
       match getCollection (this_schema this) related with
       | None => Throw TypeError
       | Some relatedOverview =>
           Ok (ops ++
               [Foreign fld (truthy (Some constraintName)) related (primary relatedOverview)
                        (truthy (r_schema_on_delete relation))])
       end |}.

(** The body of the transaction of [updateOne]. *)
Definition updateOne_transaction (this : RelationsService) (coll fld : string)
    (relation : PartialRelation) (existingRelation : Relation) : M unit :=
  match truthy (related_collection existingRelation) with
  | Some related =>
      alterTable coll (updateOne_alter this coll fld relation existingRelation related)
  | None => mret tt
  end ;;
  match r_meta relation with
  | Some relation_meta =>
      match meta existingRelation with
      | Some existingMeta => items_updateOne (id existingMeta) relation_meta
      | None =>
          items_createOne
            (merge_meta relation_meta (r_collection relation) (r_field relation)
                        (truthy (related_collection existingRelation)))
      end
  | None => mret tt
  end.

(** [updateOne(collection, field, relation)] *)
Definition updateOne (this : RelationsService) (coll fld : string) (relation : PartialRelation)
    : M unit :=
  existingRelation ← existing_relation this coll fld;
  emit PreColumnChange ;;
  let runPostColumnChange := preColumnChange_result this in
  try_finally
    (transaction (updateOne_transaction this coll fld relation existingRelation))
    (clear_finally runPostColumnChange coll fld).

(** The body of the transaction of [deleteOne]; its [alterTable]
    callback is a plain function, which has added its statement when it
    returns. *)
Definition deleteOne_transaction (coll fld : string) (existingRelation : Relation) : M unit :=
  w ← get_world;
  let existingConstraints := foreignKeys None w in
  let constraintNames := map constraint_name existingConstraints in
  match truthy (schema existingRelation ≫= constraint_name) with
  | Some name =>
      if bool_decide (Some name ∈ constraintNames)
      then alterTable (collection existingRelation)
                      {| before_await := [DropForeign (field existingRelation) name];
                         after_await := Ok [] |}
      else mret tt
  | None => mret tt
  end ;;
  match meta existingRelation with
  | Some _ => delete_where coll fld
  | None => mret tt
  end.

(** [deleteOne(collection, field)] *)
Definition deleteOne (this : RelationsService) (coll fld : string) : M unit :=
  existingRelation ← existing_relation this coll fld;
  emit PreColumnChange ;;
  let runPostColumnChange := preColumnChange_result this in
  try_finally
    (transaction (deleteOne_transaction coll fld existingRelation))
    (clear_finally runPostColumnChange coll fld).

End Service.

(** ** The access rule in the words of the specification *)

(** A field is allowed on a collection, by name or by the wildcard. *)
Definition field_allowed (allowedFields : gmap string (list string)) (coll fld : string) : Prop :=
  ∃ fs, allowedFields !! coll = Some fs ∧ ("*" ∈ fs ∨ fld ∈ fs).

(** Conditions (a) to (e) as the specification words them: (e) asks
    for the reverse field on the related collection whenever a reverse
    field is declared. *)
Definition survives_as_stated
    (allowedCollections : list string) (allowedFields : gmap string (list string))
    (r : Relation) : Prop :=
  collection r ∈ allowedCollections
  ∧ (∀ related, truthy (related_collection r) = Some related → related ∈ allowedCollections)
  ∧ (∀ cs, meta r ≫= one_allowed_collections = Some cs →
       ∀ c, c ∈ cs → c ∈ allowedCollections)
  ∧ field_allowed allowedFields (collection r) (field r)
  ∧ (∀ reverse, truthy (meta r ≫= one_field) = Some reverse →
       ∃ related, truthy (related_collection r) = Some related
                  ∧ field_allowed allowedFields related reverse).

(** The same conditions, with (e) asked only of a relation that has a
    related collection. *)
Definition survives
    (allowedCollections : list string) (allowedFields : gmap string (list string))
    (r : Relation) : Prop :=
  collection r ∈ allowedCollections
  ∧ (∀ related, truthy (related_collection r) = Some related → related ∈ allowedCollections)
  ∧ (∀ cs, meta r ≫= one_allowed_collections = Some cs →
       ∀ c, c ∈ cs → c ∈ allowedCollections)
  ∧ field_allowed allowedFields (collection r) (field r)
  ∧ (∀ related reverse,
       truthy (related_collection r) = Some related →
       truthy (meta r ≫= one_field) = Some reverse →
       field_allowed allowedFields related reverse).

(** A method never ends in [ForbiddenException]. *)
Definition never_forbidden {A} (m : M A) : Prop :=
  ∀ w, (m w).1 ≠ Throw ForbiddenException.

(** The same service, schema and backend, for another caller. *)
Definition with_accountability (acc : option Accountability) (this : RelationsService)
    : RelationsService :=
  {| accountability := acc; this_schema := this_schema this;
     preColumnChange_result := preColumnChange_result this |}.

(** Two stores hold the same database: foreign keys, metadata rows and
    column types; only the log of effects may differ. *)
Definition same_database (w w' : World) : Prop :=
  foreign_keys w = foreign_keys w'
  ∧ directus_relations w = directus_relations w'
  ∧ column_types w = column_types w'.

(** A method leaves the log of effects as it found it. *)
Definition keeps_log {A} (m : M A) : Prop := ∀ w, log (m w).2 = log w.

(** The events of [if (runPostColumnChange) postColumnChange()]. *)
Definition post_events (runPostColumnChange : bool) : list Event :=
  if runPostColumnChange then [PostColumnChange] else [].

(** ** Collaborators, for running the service on concrete data *)

Module Fixture.

(** Modelled from the spec: the stitcher (utils/stitch-relations), which
    merges a metadata row with the physical row on the same
    (collection, field), the physical row deciding the related
    collection; a metadata row without a physical row gives a
    descriptor without schema; metadata rows come first, then the
    physical rows no metadata row matched. *)
Definition stitchRelations (metaRows : list RelationMeta) (schemaRows : list ForeignKey)
    : list Relation :=
  let matches (m : RelationMeta) (fk : ForeignKey) : bool :=
    bool_decide (table fk = many_collection m) && bool_decide (column fk = many_field m) in
  map (λ m,
         match List.find (matches m) schemaRows with
         | Some fk =>
             {| collection := table fk; field := column fk;
                related_collection := Some (foreign_key_table fk);
                schema := Some fk; meta := Some m |}
         | None =>
             {| collection := many_collection m; field := many_field m;
                related_collection := one_collection m;
                schema := None; meta := Some m |}
         end) metaRows
  ++ map (λ fk,
            {| collection := table fk; field := column fk;
               related_collection := Some (foreign_key_table fk);
               schema := Some fk; meta := None |})
         (List.filter (λ fk, negb (existsb (λ m, matches m fk) metaRows)) schemaRows).

(** Modelled from the spec: the permission oracle
    (PermissionsService.getAllowedFields), a mapping from collection to
    the field names, or the wildcard, of the caller's permissions for
    the action. *)
Definition getAllowedFields (acc : option Accountability) (act : string)
    : gmap string (list string) :=
  foldl (λ m permission,
           if bool_decide (action permission = act)
           then <[perm_collection permission :=
                    default [] (m !! perm_collection permission)
                    ++ default [] (fields permission)]> m
           else m)
        ∅ (default [] (acc ≫= permissions)).

(** Modelled from the spec: the deterministic constraint naming function
    (utils/get-default-index-name), from (kind, collection, field). *)
Definition getDefaultIndexName (kind coll fld : string) : string :=
  coll +:+ "_" +:+ fld +:+ "_" +:+ kind.

(** Modelled from the spec: the schema snapshot, queries against an
    in-memory representation of the collections, their primary key and
    fields, and the relations. *)
Definition snapshot
    (collections : list (string * (string * list (string * option string))))
    (relations : list Relation) : SchemaOverview :=
  let lookup_collection c := (list_to_map collections : gmap string _) !! c in
  let fields_of c : gmap string FieldOverview :=
    match lookup_collection c with
    | Some (_, fs) => list_to_map (map (λ p, (p.1, {| dbType := p.2 |})) fs)
    | None => ∅
    end in
  {| getCollections := (λ p, {| primary := p.1 |}) <$> list_to_map collections;
     getFields := fields_of;
     getRelationsForCollection c :=
       List.filter (λ r, bool_decide (collection r = c)) relations;
     hasCollection c := bool_decide (is_Some (lookup_collection c));
     hasField c f := bool_decide (is_Some (fields_of c !! f));
     getCollection c := (λ p, {| primary := p.1 |}) <$> lookup_collection c;
     getField c f := fields_of c !! f;
     getPrimaryKeyField c := lookup_collection c ≫= λ p, fields_of c !! p.1;
     getRelationsForField c f :=
       List.find (λ r, bool_decide (collection r = c) && bool_decide (field r = f)) relations |}.

Definition author_fk : ForeignKey :=
  {| table := "articles"; column := "author_id"; foreign_key_table := "authors";
     foreign_key_column := "id"; constraint_name := Some "articles_author_id_foreign";
     on_delete := Some "SET NULL" |}.

Definition post_fk : ForeignKey :=
  {| table := "comments"; column := "post_id"; foreign_key_table := "articles";
     foreign_key_column := "id"; constraint_name := Some "comments_post_id_foreign";
     on_delete := Some "CASCADE" |}.

Definition post_meta : RelationMeta :=
  {| id := 1; many_collection := "comments"; many_field := "post_id";
     one_collection := Some "articles"; one_field := Some "comments";
     one_collection_field := None; one_allowed_collections := None;
     junction_field := None; sort_field := None |}.

(** articles.author_id is a foreign key without a metadata row;
    comments.post_id has both. *)
Definition author_relation : Relation :=
  {| collection := "articles"; field := "author_id"; related_collection := Some "authors";
     schema := Some author_fk; meta := None |}.

Definition post_relation : Relation :=
  {| collection := "comments"; field := "post_id"; related_collection := Some "articles";
     schema := Some post_fk; meta := Some post_meta |}.

Definition blog : SchemaOverview :=
  snapshot
    [("articles", ("id", [("id", Some "int unsigned"); ("title", Some "varchar");
                          ("author_id", Some "int"); ("editor_id", Some "int")]));
     ("authors", ("id", [("id", Some "int unsigned"); ("name", Some "varchar")]));
     ("comments", ("id", [("id", Some "int unsigned"); ("post_id", Some "int unsigned")]))]
    [author_relation; post_relation].

Definition columns : gmap (string * string) string :=
  list_to_map
    [(("articles", "id"), "int unsigned"); (("articles", "title"), "varchar");
     (("articles", "author_id"), "int"); (("articles", "editor_id"), "int");
     (("authors", "id"), "int unsigned"); (("authors", "name"), "varchar");
     (("comments", "id"), "int unsigned"); (("comments", "post_id"), "int unsigned")].

Definition world : World :=
  {| foreign_keys := [author_fk; post_fk]; directus_relations := [post_meta];
     column_types := columns; transactional_ddl := false; log := [] |}.

(** The constraint of comments.post_id was dropped by hand. *)
Definition drifted : World :=
  {| foreign_keys := [author_fk]; directus_relations := [post_meta];
     column_types := columns; transactional_ddl := false; log := [] |}.

(** The constraint of comments.post_id was dropped by hand, and another
    table has a constraint of the same name. *)
Definition shadowed : World :=
  {| foreign_keys :=
       [author_fk;
        {| table := "drafts"; column := "post_id"; foreign_key_table := "articles";
           foreign_key_column := "id"; constraint_name := Some "comments_post_id_foreign";
           on_delete := None |}];
     directus_relations := [post_meta];
     column_types := columns; transactional_ddl := false; log := [] |}.

Definition administrator : Accountability :=
  {| admin := Some true; permissions := Some [] |}.

(** May read articles and the relations, not authors. *)
Definition editor : Accountability :=
  {| admin := Some false;
     permissions :=
       Some [ {| action := "read"; perm_collection := "directus_relations"; fields := Some ["*"] |};
              {| action := "read"; perm_collection := "articles";
                 fields := Some ["id"; "title"; "item"] |} ] |}.

Definition service (acc : option Accountability) : RelationsService :=
  {| accountability := acc; this_schema := blog; preColumnChange_result := true |}.

(** A relation with a reverse field and no related collection. *)
Definition item_relation : Relation :=
  {| collection := "articles"; field := "item"; related_collection := None; schema := None;
     meta := Some {| id := 2; many_collection := "articles"; many_field := "item";
                     one_collection := None; one_field := Some "articles";
                     one_collection_field := Some "collection";
                     one_allowed_collections := Some ["articles"];
                     junction_field := None; sort_field := None |} |}.

End Fixture.

(** * Properties *)

(** ** Lists and truthiness *)

Lemma includes_true (x : string) (l : list string) : includes x l = true ↔ x ∈ l.
Proof. unfold includes. apply bool_decide_eq_true. Qed.

Lemma includes_false (x : string) (l : list string) : includes x l = false ↔ x ∉ l.
Proof. unfold includes. apply bool_decide_eq_false. Qed.

Lemma every_true {A} (p : A → bool) (l : list A) :
  every p l = true ↔ ∀ x, x ∈ l → p x = true.
Proof.
  unfold every. rewrite forallb_forall.
  split; intros H x Hx; apply H; by apply list_elem_of_In.
Qed.

Lemma elem_of_filter {A} (p : A → bool) (l : list A) (x : A) :
  x ∈ List.filter p l ↔ x ∈ l ∧ p x = true.
Proof. rewrite !list_elem_of_In. apply filter_In. Qed.

Lemma filter_filter {A} (p : A → bool) (l : list A) :
  List.filter p (List.filter p l) = List.filter p l.
Proof.
  induction l as [|x l IH]; simpl; [done|].
  destruct (p x) eqn:Hp; simpl; [|done].
  by rewrite Hp, IH.
Qed.

Lemma filter_sublist {A} (p : A → bool) (l : list A) : List.filter p l `sublist_of` l.
Proof.
  induction l as [|x l IH]; simpl; [constructor|].
  destruct (p x); by constructor.
Qed.

Lemma truthy_Some (o : option string) (s : string) :
  truthy o = Some s ↔ o = Some s ∧ s ≠ "".
Proof.
  destruct o as [t|]; simpl; [|naive_solver].
  case_bool_decide; naive_solver.
Qed.

(** ** The access filter *)

Lemma field_check (allowedFields : gmap string (list string)) (coll fld : string) :
  match allowedFields !! coll with
  | None => false
  | Some fs => includes "*" fs || includes fld fs
  end = true ↔ field_allowed allowedFields coll fld.
Proof.
  unfold field_allowed. destruct (allowedFields !! coll) as [fs|]; [|naive_solver].
  rewrite orb_true_iff, !includes_true. naive_solver.
Qed.

(** The two flags of the callback, as one conjunction of five checks. *)
Lemma callback_checks (acs : list string) (afs : gmap string (list string)) (r : Relation) :
  filterForbidden_callback acs afs r =
    includes (collection r) acs
    && match truthy (related_collection r) with
       | Some related => includes related acs
       | None => true
       end
    && match meta r ≫= one_allowed_collections with
       | Some cs => every (λ c, includes c acs) cs
       | None => true
       end
    && match afs !! collection r with
       | None => false
       | Some fs => includes "*" fs || includes (field r) fs
       end
    && match truthy (related_collection r), truthy (meta r ≫= one_field) with
       | Some related, Some reverse =>
           match afs !! related with
           | None => false
           | Some fs => includes "*" fs || includes reverse fs
           end
       | _, _ => true
       end.
Proof.
  unfold filterForbidden_callback.
  destruct (includes (collection r) acs);
    destruct (truthy (related_collection r)) as [related|];
    destruct (meta r ≫= one_allowed_collections) as [cs|];
    destruct (afs !! collection r) as [fs|];
    destruct (truthy (meta r ≫= one_field)) as [reverse|];
    simpl;
    repeat match goal with
           | |- context [includes ?x ?l] => destruct (includes x l); simpl
           | |- context [every ?p ?l] => destruct (every p l); simpl
           | |- context [afs !! ?k] => destruct (afs !! k); simpl
           end;
    reflexivity.
Qed.

(** The callback keeps exactly the relations that satisfy (a) to (e). *)
Lemma callback_survives (acs : list string) (afs : gmap string (list string)) (r : Relation) :
  filterForbidden_callback acs afs r = true ↔ survives acs afs r.
Proof.
  rewrite callback_checks, !andb_true_iff. unfold survives.
  rewrite includes_true, (field_check afs (collection r) (field r)).
  assert (Hb : match truthy (related_collection r) with
               | Some related => includes related acs
               | None => true
               end = true
               ↔ ∀ related, truthy (related_collection r) = Some related → related ∈ acs).
  { destruct (truthy (related_collection r)) as [related|]; [|naive_solver].
    rewrite includes_true. naive_solver. }
  assert (Hc : match meta r ≫= one_allowed_collections with
               | Some cs => every (λ c, includes c acs) cs
               | None => true
               end = true
               ↔ ∀ cs, meta r ≫= one_allowed_collections = Some cs →
                   ∀ c, c ∈ cs → c ∈ acs).
  { destruct (meta r ≫= one_allowed_collections) as [cs|]; [|naive_solver].
    rewrite every_true. setoid_rewrite includes_true. naive_solver. }
  assert (He : match truthy (related_collection r), truthy (meta r ≫= one_field) with
               | Some related, Some reverse =>
                   match afs !! related with
                   | None => false
                   | Some fs => includes "*" fs || includes reverse fs
                   end
               | _, _ => true
               end = true
               ↔ ∀ related reverse,
                   truthy (related_collection r) = Some related →
                   truthy (meta r ≫= one_field) = Some reverse →
                   field_allowed afs related reverse).
  { destruct (truthy (related_collection r)) as [related|]; [|naive_solver].
    destruct (truthy (meta r ≫= one_field)) as [reverse|]; [|naive_solver].
    rewrite (field_check afs related reverse). naive_solver. }
  rewrite Hb, Hc, He. naive_solver.
Qed.

Lemma filterForbidden_filter
    (getAllowedFields : option Accountability → string → gmap string (list string))
    (this : RelationsService) (a : Accountability) (relations : list Relation) :
  accountability this = Some a →
  admin a ≠ Some true →
  filterForbidden getAllowedFields this relations =
    List.filter (filterForbidden_callback (allowedCollections a)
                                          (getAllowedFields (Some a) "read")) relations.
Proof.
  intros Hacc Hadmin. unfold filterForbidden. rewrite Hacc.
  by rewrite bool_decide_eq_false_2.
Qed.

(** C1, as the code has it: for a caller that is present and not an
    administrator, [filterForbidden] keeps a relation of the list if and
    only if (a) its collection is read-allowed, (b) its related
    collection, when present, is allowed, (c) every collection of
    [one_allowed_collections], when present, is allowed, (d) its field
    is allowed on its collection by name or by the wildcard, and (e)
    when it has both a related collection and a reverse field, the
    reverse field is allowed on the related collection. What is
    returned is a sublist of the input: descriptors are kept whole or
    dropped. *)
Theorem filterForbidden_keeps_iff
    (getAllowedFields : option Accountability → string → gmap string (list string))
    (this : RelationsService) (a : Accountability) (relations : list Relation) :
  accountability this = Some a →
  admin a ≠ Some true →
  (∀ r, r ∈ filterForbidden getAllowedFields this relations
        ↔ r ∈ relations
          ∧ survives (allowedCollections a) (getAllowedFields (Some a) "read") r)
  ∧ filterForbidden getAllowedFields this relations `sublist_of` relations.
Proof.
  intros Hacc Hadmin. rewrite (filterForbidden_filter _ _ a) by done. split.
  - intros r. by rewrite elem_of_filter, callback_survives.
  - apply filter_sublist.
Qed.

Lemma filterForbidden_keeps_iff_witness :
  let this := Fixture.service (Some Fixture.editor) in
  let relations := [Fixture.item_relation; Fixture.author_relation] in
  accountability this = Some Fixture.editor
  ∧ admin Fixture.editor ≠ Some true
  ∧ (∀ r, r ∈ filterForbidden Fixture.getAllowedFields this relations
          ↔ r ∈ relations
            ∧ survives (allowedCollections Fixture.editor)
                       (Fixture.getAllowedFields (Some Fixture.editor) "read") r)
  ∧ filterForbidden Fixture.getAllowedFields this relations `sublist_of` relations.
Proof.
  split; [reflexivity|]. split; [discriminate|].
  apply (filterForbidden_keeps_iff Fixture.getAllowedFields
           (Fixture.service (Some Fixture.editor)) Fixture.editor);
    [reflexivity | discriminate].
Defined.

(** C1, counterexample to (e) as the specification words it: a relation
    without a related collection that declares a reverse field is kept,
    although the reverse field is allowed on no related collection. *)
Lemma filterForbidden_reverse_field_counterexample :
  Fixture.item_relation
    ∈ filterForbidden Fixture.getAllowedFields (Fixture.service (Some Fixture.editor))
        [Fixture.item_relation]
  ∧ ¬ survives_as_stated (allowedCollections Fixture.editor)
        (Fixture.getAllowedFields (Some Fixture.editor) "read") Fixture.item_relation.
Proof.
  split.
  - vm_compute. left.
  - intros (_ & _ & _ & _ & He).
    destruct (He "articles" eq_refl) as (related & Hrel & _). discriminate Hrel.
Qed.

(** C8: without accountability, or for an administrator,
    [filterForbidden] returns its input as it is. *)
Theorem filterForbidden_passthrough
    (getAllowedFields : option Accountability → string → gmap string (list string))
    (this : RelationsService) (relations : list Relation) :
  accountability this = None
  ∨ (∃ a, accountability this = Some a ∧ admin a = Some true) →
  filterForbidden getAllowedFields this relations = relations.
Proof.
  unfold filterForbidden. intros [-> | (a & -> & Hadmin)]; [done|].
  by rewrite bool_decide_eq_true_2.
Qed.

Lemma filterForbidden_passthrough_witness :
  filterForbidden Fixture.getAllowedFields (Fixture.service None)
    [Fixture.item_relation; Fixture.author_relation]
  = [Fixture.item_relation; Fixture.author_relation]
  ∧ filterForbidden Fixture.getAllowedFields (Fixture.service (Some Fixture.administrator))
      [Fixture.author_relation; Fixture.post_relation]
    = [Fixture.author_relation; Fixture.post_relation].
Proof.
  split.
  - apply (filterForbidden_passthrough Fixture.getAllowedFields (Fixture.service None)).
    left. reflexivity.
  - apply (filterForbidden_passthrough Fixture.getAllowedFields
             (Fixture.service (Some Fixture.administrator))).
    right. exists Fixture.administrator. split; reflexivity.
Defined.

(** C9: filtering a filtered list again, for the same caller and the
    same permissions, changes nothing. *)
Theorem filterForbidden_idempotent
    (getAllowedFields : option Accountability → string → gmap string (list string))
    (this : RelationsService) (relations : list Relation) :
  filterForbidden getAllowedFields this (filterForbidden getAllowedFields this relations)
  = filterForbidden getAllowedFields this relations.
Proof.
  unfold filterForbidden. destruct (accountability this) as [a|]; [|done].
  case_bool_decide; [done|]. apply filter_filter.
Qed.

(** ** Running a method *)

Lemma bind_Ok {A B} (m : M A) (f : A → M B) (w w' : World) (a : A) :
  m w = (Ok a, w') → (m ≫= f) w = f a w'.
Proof. intros H. unfold mbind, M_bind. by rewrite H. Qed.

Lemma bind_Throw {A B} (m : M A) (f : A → M B) (w w' : World) (e : Exception) :
  m w = (Throw e, w') → (m ≫= f) w = (Throw e, w').
Proof. intros H. unfold mbind, M_bind. by rewrite H. Qed.

Lemma not_admin_administrator (this : RelationsService) (a : Accountability) :
  accountability this = Some a → admin a = Some true → not_admin this = false.
Proof. intros Hacc Hadmin. unfold not_admin. rewrite Hacc. by rewrite bool_decide_eq_true_2. Qed.

(** ** The database statements leave the log alone *)

Lemma keeps_log_ret {A} (a : A) : keeps_log (mret a : M A).
Proof. done. Qed.

Lemma keeps_log_throw {A} (e : Exception) : keeps_log (throw e : M A).
Proof. done. Qed.

Lemma keeps_log_get_world : keeps_log get_world.
Proof. done. Qed.

Lemma keeps_log_bind {A B} (m : M A) (f : A → M B) :
  keeps_log m → (∀ a, keeps_log (f a)) → keeps_log (m ≫= f).
Proof.
  intros Hm Hf w. unfold mbind, M_bind. specialize (Hm w).
  destruct (m w) as [[a|e] w1]; simpl in *; [|done].
  by rewrite Hf.
Qed.

Lemma keeps_log_run_op (tbl : string) (op : TableOp) : keeps_log (run_op tbl op).
Proof.
  intros w. destruct op; simpl.
  - by destruct (existsb _ _).
  - by destruct (column_types w !! _).
  - by destruct (existsb _ _).
Qed.

Lemma keeps_log_run_ops (tbl : string) (ops : list TableOp) : keeps_log (run_ops tbl ops).
Proof.
  induction ops as [|op ops IH]; simpl; [done|].
  apply keeps_log_bind; [apply keeps_log_run_op | done].
Qed.

Lemma keeps_log_alterTable (tbl : string) (callback : Callback) :
  keeps_log (alterTable tbl callback).
Proof. apply keeps_log_run_ops. Qed.

Lemma keeps_log_items_createOne (payload : PartialRelationMeta) :
  keeps_log (items_createOne payload).
Proof.
  intros w. unfold items_createOne.
  destruct (p_many_collection payload), (p_many_field payload); try done.
  by destruct (existsb _ _).
Qed.

Lemma keeps_log_items_updateOne (k : nat) (patch : PartialRelationMeta) :
  keeps_log (items_updateOne k patch).
Proof. intros w. unfold items_updateOne. by case_match. Qed.

Lemma keeps_log_delete_where (coll fld : string) : keeps_log (delete_where coll fld).
Proof. done. Qed.

Create HintDb keeps_log.

#[export] Hint Resolve keeps_log_ret keeps_log_throw keeps_log_get_world
  keeps_log_run_ops keeps_log_alterTable keeps_log_items_createOne keeps_log_items_updateOne
  keeps_log_delete_where : keeps_log.

Ltac keeps_log :=
  repeat first
    [ solve [auto with keeps_log]
    | apply keeps_log_bind; [|intros]
    | match goal with
      | |- keeps_log (match ?x with _ => _ end) => destruct x
      | |- keeps_log (if ?b then _ else _) => destruct b
      end ].

Lemma keeps_log_createOne_transaction
    (getDefaultIndexName : string → string → string → string)
    (this : RelationsService) (relation : PartialRelation)
    (coll fld : string) (metaRow : PartialRelationMeta) :
  keeps_log (createOne_transaction getDefaultIndexName this relation coll fld metaRow).
Proof. unfold createOne_transaction. keeps_log. Qed.

Lemma keeps_log_updateOne_transaction
    (getDefaultIndexName : string → string → string → string)
    (this : RelationsService) (coll fld : string)
    (relation : PartialRelation) (existingRelation : Relation) :
  keeps_log (updateOne_transaction getDefaultIndexName this coll fld relation existingRelation).
Proof. unfold updateOne_transaction. keeps_log. Qed.

Lemma keeps_log_deleteOne_transaction (coll fld : string) (existingRelation : Relation) :
  keeps_log (deleteOne_transaction coll fld existingRelation).
Proof. unfold deleteOne_transaction. keeps_log. Qed.

(** A transaction logs its opening, whatever its outcome. *)
Lemma transaction_log {A} (body : M A) (w : World) :
  keeps_log body → log (transaction body w).2 = log w ++ [Transaction].
Proof.
  intros Hbody. unfold transaction.
  specialize (Hbody (set_log (log w ++ [Transaction]) w)).
  by destruct (body _) as [[a|e] w1].
Qed.

(** ** try/finally *)

(** With a finalizer that only logs, the statement ends as its body
    did, and the finalizer's events are logged on both outcomes. *)
Lemma try_finally_logging {A} (body : M A) (finalizer : M unit) (events : list Event)
    (w : World) :
  (∀ w1, finalizer w1 = (Ok tt, set_log (log w1 ++ events) w1)) →
  try_finally body finalizer w
  = ((body w).1, set_log (log (body w).2 ++ events) (body w).2).
Proof.
  intros Hfin. unfold try_finally. destruct (body w) as [r w1]. by rewrite Hfin.
Qed.

Lemma createOne_finally_events (runPostColumnChange : bool) (relation : PartialRelation)
    (w : World) :
  createOne_finally runPostColumnChange relation w
  = (Ok tt, set_log (log w ++ post_events runPostColumnChange
                       ++ [SetHashFull ("relations:" +:+ key (r_collection relation)) false]) w).
Proof.
  unfold createOne_finally, mbind, M_bind, emit, post_events.
  destruct runPostColumnChange; simpl; [by rewrite <- app_assoc | done].
Qed.

Lemma clear_finally_events (runPostColumnChange : bool) (coll fld : string) (w : World) :
  clear_finally runPostColumnChange coll fld w
  = (Ok tt, set_log (log w ++ post_events runPostColumnChange
                       ++ [ClearRelationsForField coll fld]) w).
Proof.
  unfold clear_finally, mbind, M_bind, emit, post_events.
  destruct runPostColumnChange; simpl; [by rewrite <- app_assoc | done].
Qed.

(** ** createOne: the order of the validation *)

Section CreateOne.

Context (getDefaultIndexName : string → string → string → string).
Context (this : RelationsService) (relation : PartialRelation) (w : World).

Lemma createOne_rejected (e : Exception) :
  createOne_validate this relation w = (Throw e, w) →
  createOne getDefaultIndexName this relation w = (Throw e, w).
Proof. intros H. unfold createOne. by erewrite bind_Throw. Qed.

(** Once validated, [createOne] calls the pre-hook, then opens the
    transaction. *)
Lemma createOne_validated (coll fld : string) :
  createOne_validate this relation w = (Ok (coll, fld), w) →
  ∃ l, log (createOne getDefaultIndexName this relation w).2
       = log w ++ PreColumnChange :: Transaction :: l.
Proof.
  intros H. unfold createOne. erewrite bind_Ok by exact H. simpl.
  erewrite bind_Ok by reflexivity.
  erewrite try_finally_logging by apply createOne_finally_events. simpl.
  rewrite transaction_log by apply keeps_log_createOne_transaction. simpl.
  rewrite <- !app_assoc. eauto.
Qed.

Ltac validate :=
  unfold createOne_validate, mbind, M_bind, throw_if, required, throw, mret, M_ret; simpl.

(** C2: for an administrator, [createOne] checks, in this order, that
    the collection name is given, that the field name is given, that
    the collection is in the schema snapshot, that the field is on the
    collection, that the field is not the primary key, that the related
    collection, if given, is in the snapshot, and that no relation sits
    on the field; the first check that fails raises InvalidPayload with
    its message and leaves the store untouched, and only when all pass
    is the transaction opened. In particular a field that is the primary
    key of its collection is always rejected with InvalidPayload. *)
Theorem createOne_validation_order (a : Accountability) :
  accountability this = Some a →
  admin a = Some true →
  let collections := getCollections (this_schema this) in
  let rejected message :=
    createOne getDefaultIndexName this relation w
    = (Throw (InvalidPayloadException message), w) in
  (truthy (r_collection relation) = None →
   rejected (quoted "collection" +:+ " is required"))
  ∧ (∀ coll, truthy (r_collection relation) = Some coll →
     (truthy (r_field relation) = None →
      rejected (quoted "field" +:+ " is required"))
     ∧ (∀ fld, truthy (r_field relation) = Some fld →
        (collections !! coll = None →
         rejected ("Collection " +:+ quoted coll +:+ " doesn't exist"))
        ∧ (∀ overview, collections !! coll = Some overview →
           (getFields (this_schema this) coll !! fld = None →
            rejected ("Field " +:+ quoted fld +:+ " doesn't exist in collection "
                      +:+ quoted coll))
           ∧ (is_Some (getFields (this_schema this) coll !! fld) →
              (primary overview = fld →
               rejected ("Field " +:+ quoted fld +:+ " in collection " +:+ quoted coll
                         +:+ " is a primary key"))
              ∧ (primary overview ≠ fld →
                 (∀ related, truthy (r_related_collection relation) = Some related →
                             collections !! related = None →
                  rejected ("Collection " +:+ quoted related +:+ " doesn't exist"))
                 ∧ ((∀ related, truthy (r_related_collection relation) = Some related →
                                is_Some (collections !! related)) →
                    let existingRelation :=
                      List.find (λ existingRelation, bool_decide (field existingRelation = fld))
                                (getRelationsForCollection (this_schema this) coll) in
                    (is_Some existingRelation →
                     rejected ("Field " +:+ quoted fld +:+ " in collection " +:+ quoted coll
                               +:+ " already has an associated relationship"))
                    ∧ (existingRelation = None →
                       ∃ l, log (createOne getDefaultIndexName this relation w).2
                            = log w ++ PreColumnChange :: Transaction :: l)))))))
  ∧ (∀ coll overview,
       r_collection relation = Some coll →
       collections !! coll = Some overview →
       r_field relation = Some (primary overview) →
       ∃ message, rejected message).
Proof.
  intros Hacc Hadmin collections rejected. subst rejected collections.
  pose proof (not_admin_administrator _ _ Hacc Hadmin) as Hna.
  assert (Horder : ∀ coll fld overview,
    truthy (r_collection relation) = Some coll →
    truthy (r_field relation) = Some fld →
    getCollections (this_schema this) !! coll = Some overview →
    (getFields (this_schema this) coll !! fld = None →
     createOne getDefaultIndexName this relation w
     = (Throw (InvalidPayloadException
                 ("Field " +:+ quoted fld +:+ " doesn't exist in collection " +:+ quoted coll)), w))
    ∧ (is_Some (getFields (this_schema this) coll !! fld) →
       primary overview = fld →
       createOne getDefaultIndexName this relation w
       = (Throw (InvalidPayloadException
                   ("Field " +:+ quoted fld +:+ " in collection " +:+ quoted coll
                    +:+ " is a primary key")), w))).
  { intros coll fld overview Hc Hf Ho. split.
    - intros Hfield. apply createOne_rejected. validate.
      by rewrite Hna, Hc, Hf, Ho, Hfield.
    - intros [fo Hfield] Hpk. apply createOne_rejected. validate.
      rewrite Hna, Hc, Hf, Ho, Hfield. simpl.
      by rewrite bool_decide_eq_true_2. }
  split; [|split].
  - intros Hc. apply createOne_rejected. validate. by rewrite Hna, Hc.
  - intros coll Hc. split.
    { intros Hf. apply createOne_rejected. validate. by rewrite Hna, Hc, Hf. }
    intros fld Hf. split.
    { intros Ho. apply createOne_rejected. validate. by rewrite Hna, Hc, Hf, Ho. }
    intros overview Ho.
    destruct (Horder coll fld overview Hc Hf Ho) as [Hmissing Hprimary].
    split; [done|].
    intros Hfield. split; [by apply Hprimary|].
    destruct Hfield as [fo Hfield].
    intros Hpk. split.
    { intros related Hrel Hnone. apply createOne_rejected. validate.
      rewrite Hna, Hc, Hf, Ho, Hfield. simpl.
      rewrite bool_decide_eq_false_2 by done. simpl.
      rewrite Hrel, Hnone. simpl.
      apply truthy_Some in Hrel as [-> _]. done. }
    intros Hrelated. simpl. split.
    + intros [existing Hex]. apply createOne_rejected. validate.
      rewrite Hna, Hc, Hf, Ho, Hfield. simpl.
      rewrite bool_decide_eq_false_2 by done. simpl.
      destruct (truthy (r_related_collection relation)) as [related|] eqn:Hrel.
      * destruct (Hrelated related eq_refl) as [ro ->]. simpl. by rewrite Hex.
      * simpl. by rewrite Hex.
    + intros Hex. apply (createOne_validated coll fld). validate.
      rewrite Hna, Hc, Hf, Ho, Hfield. simpl.
      rewrite bool_decide_eq_false_2 by done. simpl.
      destruct (truthy (r_related_collection relation)) as [related|] eqn:Hrel.
      * destruct (Hrelated related eq_refl) as [ro ->]. simpl. by rewrite Hex.
      * simpl. by rewrite Hex.
  - intros coll overview Hc Ho Hf.
    destruct (truthy (r_collection relation)) as [coll'|] eqn:Hc'.
    2:{ eexists. apply createOne_rejected. validate. by rewrite Hna, Hc'. }
    apply truthy_Some in Hc' as Hc''. destruct Hc'' as [Hc'' _].
    assert (coll' = coll) as -> by congruence.
    destruct (truthy (r_field relation)) as [fld|] eqn:Hf'.
    2:{ eexists. apply createOne_rejected. validate. by rewrite Hna, Hc', Hf'. }
    apply truthy_Some in Hf' as Hf''. destruct Hf'' as [Hf'' _].
    assert (fld = primary overview) as -> by congruence.
    destruct (Horder coll (primary overview) overview eq_refl eq_refl Ho)
      as [Hmissing Hprimary].
    destruct (getFields (this_schema this) coll !! primary overview) as [fo|] eqn:Hfield.
    + eexists. by apply Hprimary.
    + eexists. by apply Hmissing.
Qed.

End CreateOne.

Lemma createOne_validation_order_witness :
  let this := Fixture.service (Some Fixture.administrator) in
  let relation :=
    {| r_collection := Some "articles"; r_field := Some "id";
       r_related_collection := Some "authors"; r_schema_on_delete := None;
       r_meta := None |} in
  accountability this = Some Fixture.administrator
  ∧ admin Fixture.administrator = Some true
  ∧ createOne Fixture.getDefaultIndexName this relation Fixture.world
    = (Throw (InvalidPayloadException
                ("Field " +:+ quoted "id" +:+ " in collection " +:+ quoted "articles"
                 +:+ " is a primary key")), Fixture.world).
Proof.
  intros this relation. split; [reflexivity|]. split; [reflexivity|].
  destruct (createOne_validation_order Fixture.getDefaultIndexName this relation
              Fixture.world Fixture.administrator eq_refl eq_refl) as (_ & Hcoll & _).
  destruct (Hcoll "articles" eq_refl) as [_ Hfld].
  destruct (Hfld "id" eq_refl) as [_ Hoverview].
  destruct (Hoverview {| primary := "id" |} ltac:(vm_compute; reflexivity)) as [_ Hfield].
  destruct (Hfield ltac:(vm_compute; eauto)) as [Hprimary _].
  exact (Hprimary eq_refl).
Defined.

(** ** The mutations: cleanup on every exit *)

Section Mutations.

Context (getDefaultIndexName : string → string → string → string).
Context (this : RelationsService) (w : World).

Lemma createOne_validate_inv (relation : PartialRelation) (coll fld : string) (w' : World) :
  createOne_validate this relation w = (Ok (coll, fld), w') →
  w' = w
  ∧ not_admin this = false
  ∧ truthy (r_collection relation) = Some coll
  ∧ truthy (r_field relation) = Some fld
  ∧ is_Some (getCollections (this_schema this) !! coll).
Proof.
  unfold createOne_validate, mbind, M_bind, throw_if, required, throw, mret, M_ret. simpl.
  destruct (not_admin this); [done|].
  destruct (truthy (r_collection relation)) as [c|]; [|done].
  destruct (truthy (r_field relation)) as [f|]; [|done].
  destruct (getCollections (this_schema this) !! c) as [o|] eqn:Ho; [|done]. simpl.
  destruct (negb (bool_decide (is_Some (getFields (this_schema this) c !! f)))); [done|].
  destruct (bool_decide (primary o = f)); [done|].
  destruct (match truthy (r_related_collection relation) with
            | Some related => _
            | None => false
            end); [done|].
  destruct (bool_decide (is_Some _)); [done|].
  intros [= <- <- <-]. rewrite Ho. eauto.
Qed.

Lemma existing_relation_inv (coll fld : string) (existingRelation : Relation) (w' : World) :
  existing_relation this coll fld w = (Ok existingRelation, w') →
  w' = w
  ∧ not_admin this = false
  ∧ hasCollection (this_schema this) coll = true
  ∧ hasField (this_schema this) coll fld = true
  ∧ getRelationsForField (this_schema this) coll fld = Some existingRelation.
Proof.
  unfold existing_relation, mbind, M_bind, throw_if, required, throw, mret, M_ret.
  destruct (not_admin this); [done|].
  destruct (hasCollection (this_schema this) coll); [|done].
  destruct (hasField (this_schema this) coll fld); [|done]. simpl.
  destruct (getRelationsForField (this_schema this) coll fld) as [r|]; [|done].
  by intros [= <- <-].
Qed.

(** The frame every mutation shares: pre-hook, transaction, cleanup. *)
Lemma guarded_transaction {A} (body : M A) (finalizer : M unit) (events : list Event) :
  keeps_log body →
  (∀ w1, finalizer w1 = (Ok tt, set_log (log w1 ++ events) w1)) →
  let tx := transaction body (set_log (log w ++ [PreColumnChange]) w) in
  (emit PreColumnChange ;; try_finally (transaction body) finalizer) w
  = (tx.1, set_log (log w ++ [PreColumnChange; Transaction] ++ events) tx.2).
Proof.
  intros Hbody Hfin tx. erewrite bind_Ok by reflexivity.
  erewrite try_finally_logging by exact Hfin. fold tx.
  f_equal. f_equal. subst tx. rewrite transaction_log by done. simpl.
  by rewrite <- !app_assoc.
Qed.

Lemma createOne_run (relation : PartialRelation) (coll fld : string) :
  createOne_validate this relation w = (Ok (coll, fld), w) →
  let metaRow :=
    merge_meta (default empty_meta (r_meta relation)) (r_collection relation)
               (r_field relation) (truthy (r_related_collection relation)) in
  let tx :=
    transaction (createOne_transaction getDefaultIndexName this relation coll fld metaRow)
                (set_log (log w ++ [PreColumnChange]) w) in
  createOne getDefaultIndexName this relation w
  = (tx.1, set_log (log w ++ [PreColumnChange; Transaction]
                      ++ post_events (preColumnChange_result this)
                      ++ [SetHashFull ("relations:" +:+ coll) false]) tx.2).
Proof.
  intros Hvalid metaRow tx.
  apply createOne_validate_inv in Hvalid as Hinv.
  destruct Hinv as (_ & _ & Hcoll & _).
  apply truthy_Some in Hcoll as [Hcoll _].
  unfold createOne. erewrite bind_Ok by exact Hvalid. simpl.
  rewrite (guarded_transaction _ _
             (post_events (preColumnChange_result this)
              ++ [SetHashFull ("relations:" +:+ key (r_collection relation)) false])).
  - replace (key (r_collection relation)) with coll by (by rewrite Hcoll). done.
  - apply keeps_log_createOne_transaction.
  - intros w1. apply createOne_finally_events.
Qed.

Lemma updateOne_run (coll fld : string) (relation : PartialRelation)
    (existingRelation : Relation) :
  existing_relation this coll fld w = (Ok existingRelation, w) →
  let tx :=
    transaction
      (updateOne_transaction getDefaultIndexName this coll fld relation existingRelation)
      (set_log (log w ++ [PreColumnChange]) w) in
  updateOne getDefaultIndexName this coll fld relation w
  = (tx.1, set_log (log w ++ [PreColumnChange; Transaction]
                      ++ post_events (preColumnChange_result this)
                      ++ [ClearRelationsForField coll fld]) tx.2).
Proof.
  intros Hexisting tx.
  unfold updateOne. erewrite bind_Ok by exact Hexisting.
  rewrite (guarded_transaction _ _
             (post_events (preColumnChange_result this) ++ [ClearRelationsForField coll fld])).
  - done.
  - apply keeps_log_updateOne_transaction.
  - intros w1. apply clear_finally_events.
Qed.

Lemma deleteOne_run (coll fld : string) (existingRelation : Relation) :
  existing_relation this coll fld w = (Ok existingRelation, w) →
  let tx :=
    transaction (deleteOne_transaction coll fld existingRelation)
                (set_log (log w ++ [PreColumnChange]) w) in
  deleteOne this coll fld w
  = (tx.1, set_log (log w ++ [PreColumnChange; Transaction]
                      ++ post_events (preColumnChange_result this)
                      ++ [ClearRelationsForField coll fld]) tx.2).
Proof.
  intros Hexisting tx.
  unfold deleteOne. erewrite bind_Ok by exact Hexisting.
  rewrite (guarded_transaction _ _
             (post_events (preColumnChange_result this) ++ [ClearRelationsForField coll fld])).
  - done.
  - apply keeps_log_deleteOne_transaction.
  - intros w1. apply clear_finally_events.
Qed.

(** C6: once [createOne], [updateOne] or [deleteOne] has passed its
    checks, it ends as its transaction ended, a committed transaction
    or the error it raised, and on both outcomes the log shows, after
    the pre-hook and the transaction, the post-hook exactly when the
    pre-hook asked for it, then the invalidation of the relation cache:
    of the collection for [createOne], of the (collection, field) pair
    for [updateOne] and [deleteOne]. *)
Theorem cleanup_on_every_exit :
  let pre := set_log (log w ++ [PreColumnChange]) w in
  let cleanup := if preColumnChange_result this then [PostColumnChange] else [] in
  (∀ relation coll fld,
     createOne_validate this relation w = (Ok (coll, fld), w) →
     let metaRow :=
       merge_meta (default empty_meta (r_meta relation)) (r_collection relation)
                  (r_field relation) (truthy (r_related_collection relation)) in
     let tx :=
       transaction (createOne_transaction getDefaultIndexName this relation coll fld metaRow)
                   pre in
     createOne getDefaultIndexName this relation w
     = (tx.1, set_log (log w ++ [PreColumnChange; Transaction] ++ cleanup
                         ++ [SetHashFull ("relations:" +:+ coll) false]) tx.2))
  ∧ (∀ coll fld relation existingRelation,
       existing_relation this coll fld w = (Ok existingRelation, w) →
       let tx :=
         transaction
           (updateOne_transaction getDefaultIndexName this coll fld relation existingRelation)
           pre in
       updateOne getDefaultIndexName this coll fld relation w
       = (tx.1, set_log (log w ++ [PreColumnChange; Transaction] ++ cleanup
                           ++ [ClearRelationsForField coll fld]) tx.2))
  ∧ (∀ coll fld existingRelation,
       existing_relation this coll fld w = (Ok existingRelation, w) →
       let tx := transaction (deleteOne_transaction coll fld existingRelation) pre in
       deleteOne this coll fld w
       = (tx.1, set_log (log w ++ [PreColumnChange; Transaction] ++ cleanup
                           ++ [ClearRelationsForField coll fld]) tx.2)).
Proof.
  intros pre cleanup. split_and!.
  - intros relation coll fld Hvalid. by apply createOne_run.
  - intros coll fld relation existingRelation Hexisting. by apply updateOne_run.
  - intros coll fld existingRelation Hexisting. by apply deleteOne_run.
Qed.

(** ** deleteOne and a constraint dropped out of band *)

(** The rows [deleteOne] leaves in directus_relations. *)
Lemma deleteOne_transaction_run (coll fld : string) (existingRelation : Relation) (w0 : World) :
  let recorded := truthy (schema existingRelation ≫= constraint_name) in
  let live := map constraint_name (foreign_keys w0) in
  let rows :=
    match meta existingRelation with
    | Some _ =>
        List.filter (λ row, negb (bool_decide (many_collection row = coll)
                                  && bool_decide (many_field row = fld)))
                    (directus_relations w0)
    | None => directus_relations w0
    end in
  match recorded with
  | Some name =>
      if bool_decide (Some name ∈ live)
      then
        if existsb (has_constraint (collection existingRelation) name) (foreign_keys w0)
        then deleteOne_transaction coll fld existingRelation w0
             = (Ok tt,
                set_directus_relations rows
                  (set_foreign_keys
                     (List.filter
                        (λ fk, negb (has_constraint (collection existingRelation) name fk))
                        (foreign_keys w0)) w0))
        else deleteOne_transaction coll fld existingRelation w0
             = (Throw (DatabaseError "constraint does not exist"), w0)
      else deleteOne_transaction coll fld existingRelation w0
           = (Ok tt, set_directus_relations rows w0)
  | None => deleteOne_transaction coll fld existingRelation w0
            = (Ok tt, set_directus_relations rows w0)
  end.
Proof.
  intros recorded live rows. subst recorded live rows.
  destruct (truthy (schema existingRelation ≫= constraint_name)) as [name|] eqn:Hrec;
    unfold deleteOne_transaction; rewrite Hrec;
    unfold mbind, M_bind, get_world, foreignKeys, alterTable, mret, M_ret; simpl.
  - case_bool_decide; simpl.
    + repeat (progress (unfold mbind, M_bind, mret, M_ret, run_op; simpl)).
      destruct (existsb _ _); simpl; [|done].
      destruct (meta existingRelation); [done|]. by destruct w0.
    + destruct (meta existingRelation); [done|]. by destruct w0.
  - destruct (meta existingRelation); [done|]. by destruct w0.
Qed.


End Mutations.

Lemma cleanup_on_every_exit_witness :
  let this := Fixture.service (Some Fixture.administrator) in
  existing_relation this "comments" "post_id" Fixture.shadowed
  = (Ok Fixture.post_relation, Fixture.shadowed)
  ∧ deleteOne this "comments" "post_id" Fixture.shadowed
    = (Throw (DatabaseError "constraint does not exist"),
       set_log [PreColumnChange; Transaction; PostColumnChange;
                ClearRelationsForField "comments" "post_id"] Fixture.shadowed).
Proof.
  intros this.
  assert (Hexisting : existing_relation this "comments" "post_id" Fixture.shadowed
                      = (Ok Fixture.post_relation, Fixture.shadowed))
    by (vm_compute; reflexivity).
  split; [exact Hexisting|].
  destruct (cleanup_on_every_exit Fixture.getDefaultIndexName this Fixture.shadowed)
    as (_ & _ & Hdelete).
  rewrite (Hdelete "comments" "post_id" Fixture.post_relation Hexisting).
  vm_compute. reflexivity.
Defined.



(** ** updateOne on a relation without a metadata row *)

(** C4, the code at a concrete call: articles.author_id is a foreign
    key to authors without a metadata row; an update whose payload
    names comments.post_id succeeds, and the metadata row it creates
    belongs to comments.post_id, with authors as its related
    collection; articles.author_id still has no metadata row. *)
Lemma updateOne_metadata_row_follows_payload :
  let this := Fixture.service (Some Fixture.administrator) in
  let payload :=
    {| r_collection := Some "comments"; r_field := Some "post_id";
       r_related_collection := Some "authors"; r_schema_on_delete := Some "SET NULL";
       r_meta := Some (merge_meta empty_meta None None None) |} in
  let out := updateOne Fixture.getDefaultIndexName this "articles" "author_id" payload
               Fixture.world in
  getRelationsForField (this_schema this) "articles" "author_id" = Some Fixture.author_relation
  ∧ out.1 = Ok tt
  ∧ map (λ row, (many_collection row, many_field row, one_collection row))
        (directus_relations out.2)
    = [("comments", "post_id", Some "articles"); ("comments", "post_id", Some "authors")].
Proof. vm_compute. split_and!; reflexivity. Qed.

(** ** alterType *)

(** C7, the code at a concrete call: articles.editor_id has the type
    'int' and the primary key of authors the type 'int unsigned', so
    [alterType] asks for editor_id to become 'int unsigned'. It does so
    after the first [await] of the [alterTable] callback of
    [createOne], when knex has compiled the builder: [createOne]
    succeeds and writes the metadata row, and editor_id still has the
    type 'int'. *)
Lemma createOne_leaves_the_int_type :
  let this := Fixture.service (Some Fixture.administrator) in
  let relation :=
    {| r_collection := Some "articles"; r_field := Some "editor_id";
       r_related_collection := Some "authors"; r_schema_on_delete := None;
       r_meta := None |} in
  let callback :=
    createOne_alter Fixture.getDefaultIndexName this relation "articles" "editor_id" "authors" in
  let out := createOne Fixture.getDefaultIndexName this relation Fixture.world in
  getField (this_schema this) "articles" "editor_id" = Some {| dbType := Some "int" |}
  ∧ getPrimaryKeyField (this_schema this) "authors" = Some {| dbType := Some "int unsigned" |}
  ∧ alterType this relation = Ok [SpecificTypeAlter "editor_id" "int unsigned"]
  ∧ before_await callback = []
  ∧ after_await callback
    = Ok [SpecificTypeAlter "editor_id" "int unsigned";
          Foreign "editor_id" (Some "articles_editor_id_foreign") "authors" "id" None]
  ∧ out.1 = Ok tt
  ∧ map (λ row, (many_collection row, many_field row)) (directus_relations out.2)
    = [("comments", "post_id"); ("articles", "editor_id")]
  ∧ column_types Fixture.world !! ("articles", "editor_id") = Some "int"
  ∧ column_types out.2 !! ("articles", "editor_id") = Some "int"
  ∧ foreign_keys out.2 = foreign_keys Fixture.world.
Proof. vm_compute. split_and!; reflexivity. Qed.

(** ** readOne: what is forbidden *)

Section Reads.

Context (getAllowedFields : option Accountability → string → gmap string (list string)).
Context (stitchRelations : list RelationMeta → list ForeignKey → list Relation).
Context (this : RelationsService) (coll fld : string) (w : World).

Lemma readOne_check_world (r : Result unit) (w' : World) :
  readOne_check this coll fld w = (r, w') →
  w' = w ∧ (∀ e, r = Throw e → e = ForbiddenException).
Proof.
  unfold readOne_check, mbind, M_bind, throw_if, required, throw, mret, M_ret.
  repeat case_match; intros; simplify_eq; naive_solver.
Qed.

Lemma readOne_checked :
  readOne_check this coll fld w = (Ok tt, w) →
  readOne getAllowedFields stitchRelations this coll fld w
  = match readOne_results getAllowedFields stitchRelations this coll fld w with
    | [] => (Throw ForbiddenException, w)
    | result :: _ => (Ok result, w)
    end.
Proof.
  intros Hcheck. unfold readOne. erewrite bind_Ok by exact Hcheck.
  erewrite bind_Ok by reflexivity. by destruct (readOne_results _ _ _ _ _ _).
Qed.

Lemma readOne_refused :
  readOne_check this coll fld w = (Throw ForbiddenException, w) →
  readOne getAllowedFields stitchRelations this coll fld w = (Throw ForbiddenException, w).
Proof. intros Hcheck. unfold readOne. by erewrite bind_Throw. Qed.

(** [readOne] ends in a descriptor or in Forbidden, and never writes. *)
Lemma readOne_outcome :
  (readOne getAllowedFields stitchRelations this coll fld w).2 = w
  ∧ ∀ e, (readOne getAllowedFields stitchRelations this coll fld w).1 = Throw e →
         e = ForbiddenException.
Proof.
  destruct (readOne_check this coll fld w) as [[[]|e] w'] eqn:Hcheck;
    apply readOne_check_world in Hcheck as Hw; destruct Hw as [-> He].
  - rewrite (readOne_checked Hcheck).
    destruct (readOne_results _ _ _ _ _ _); simpl; [|done].
    split; [done|]. by intros e [= <-].
  - rewrite (He e eq_refl) in Hcheck. rewrite (readOne_refused Hcheck). simpl.
    split; [done|]. by intros e' [= <-].
Qed.

(** C3: for a caller that is present and not an administrator,
    [readOne] raises Forbidden when the caller has no read permission
    on directus_relations, when it has no read permission record for
    the collection, and when the record's field list has neither the
    wildcard nor the field; and whenever stitching and filtering leave
    no descriptor it raises Forbidden. Forbidden is the only error
    [readOne] raises. *)
Theorem readOne_forbidden (a : Accountability) :
  accountability this = Some a →
  admin a ≠ Some true →
  let run := readOne getAllowedFields stitchRelations this coll fld w in
  let record :=
    permissions a ≫=
      List.find (λ permission,
                   bool_decide (action permission = "read")
                   && bool_decide (perm_collection permission = coll)) in
  (hasReadAccess this = false → run = (Throw ForbiddenException, w))
  ∧ (record = None → run = (Throw ForbiddenException, w))
  ∧ (∀ permission allowed,
       record = Some permission → fields permission = Some allowed →
       "*" ∉ allowed → fld ∉ allowed →
       run = (Throw ForbiddenException, w))
  ∧ (readOne_results getAllowedFields stitchRelations this coll fld w = [] →
     run = (Throw ForbiddenException, w))
  ∧ (∀ e, run.1 = Throw e → e = ForbiddenException).
Proof.
  intros Hacc Hadmin run record. subst run.
  assert (Hcheck :
            readOne_check this coll fld w
            = (if negb (hasReadAccess this) then Throw ForbiddenException
               else match record ≫= fields with
                    | None => Throw ForbiddenException
                    | Some allowed =>
                        if negb (includes "*" allowed) && negb (includes fld allowed)
                        then Throw ForbiddenException else Ok tt
                    end, w)).
  { subst record.
    unfold readOne_check, mbind, M_bind, throw_if, required, throw, mret, M_ret.
    rewrite Hacc. rewrite bool_decide_eq_false_2 by done.
    destruct (negb (hasReadAccess this)); [done|].
    unfold mbind, option_bind.
    destruct (permissions a) as [ps|]; [|done].
    destruct (List.find _ ps) as [permission|]; [|done].
    destruct (fields permission) as [allowed|]; simpl; [|done].
    by destruct (negb (includes "*" allowed) && negb (includes fld allowed)). }
  split_and!.
  - intros Haccess. rewrite Haccess in Hcheck. by apply readOne_refused.
  - intros Hrecord. rewrite Hrecord in Hcheck. simpl in Hcheck.
    apply readOne_refused. by destruct (negb (hasReadAccess this)).
  - intros permission allowed Hrecord Hfields Hwild Hfld.
    rewrite Hrecord in Hcheck. simpl in Hcheck. rewrite Hfields in Hcheck.
    apply includes_false in Hwild, Hfld. rewrite Hwild, Hfld in Hcheck. simpl in Hcheck.
    apply readOne_refused. by destruct (negb (hasReadAccess this)).
  - intros Hnone.
    destruct (readOne_check this coll fld w) as [r w'] eqn:Hrun.
    apply readOne_check_world in Hrun as Hw. destruct Hw as [Hw He]. subst w'.
    destruct r as [[]|e].
    + rewrite (readOne_checked Hrun). by rewrite Hnone.
    + rewrite (He e eq_refl) in Hrun. by apply readOne_refused.
  - apply readOne_outcome.
Qed.

End Reads.

Lemma readOne_forbidden_witness :
  let this := Fixture.service (Some Fixture.editor) in
  accountability this = Some Fixture.editor
  ∧ admin Fixture.editor ≠ Some true
  ∧ readOne Fixture.getAllowedFields Fixture.stitchRelations this "articles" "author_id"
      Fixture.world
    = (Throw ForbiddenException, Fixture.world).
Proof.
  intros this. split; [reflexivity|]. split; [discriminate|].
  destruct (readOne_forbidden Fixture.getAllowedFields Fixture.stitchRelations this
              "articles" "author_id" Fixture.world Fixture.editor eq_refl
              ltac:(discriminate)) as (_ & _ & Hfield & _).
  apply (Hfield {| action := "read"; perm_collection := "articles";
                   fields := Some ["id"; "title"; "item"] |}
                ["id"; "title"; "item"] eq_refl eq_refl).
  - intros Hin. apply list_elem_of_In in Hin. vm_compute in Hin. intuition discriminate.
  - intros Hin. apply list_elem_of_In in Hin. vm_compute in Hin. intuition discriminate.
Defined.

(** ** No accountability *)

Lemma never_forbidden_ret {A} (a : A) : never_forbidden (mret a : M A).
Proof. done. Qed.

Lemma never_forbidden_throw {A} (e : Exception) :
  e ≠ ForbiddenException → never_forbidden (throw e : M A).
Proof. intros He w [= ->]. done. Qed.

Lemma never_forbidden_get_world : never_forbidden get_world.
Proof. done. Qed.

Lemma never_forbidden_emit (ev : Event) : never_forbidden (emit ev).
Proof. done. Qed.

Lemma never_forbidden_bind {A B} (m : M A) (f : A → M B) :
  never_forbidden m → (∀ a, never_forbidden (f a)) → never_forbidden (m ≫= f).
Proof.
  intros Hm Hf w. unfold mbind, M_bind. specialize (Hm w).
  destruct (m w) as [[a|e] w1]; simpl in *; [apply Hf|].
  intros [= ->]. by apply Hm.
Qed.

Lemma never_forbidden_try_finally {A} (body : M A) (finalizer : M unit) :
  never_forbidden body → never_forbidden finalizer →
  never_forbidden (try_finally body finalizer).
Proof.
  intros Hbody Hfin w. unfold try_finally. specialize (Hbody w).
  destruct (body w) as [r w1]. specialize (Hfin w1).
  destruct (finalizer w1) as [[[]|e] w2]; simpl in *; [done|].
  intros [= ->]. by apply Hfin.
Qed.

Lemma never_forbidden_transaction {A} (body : M A) :
  never_forbidden body → never_forbidden (transaction body).
Proof.
  intros Hbody w. unfold transaction.
  specialize (Hbody (set_log (log w ++ [Transaction]) w)).
  by destruct (body _) as [[a|e] w1].
Qed.

Lemma never_forbidden_throw_if (cond : bool) (e : Exception) :
  (cond = true → e ≠ ForbiddenException) → never_forbidden (throw_if cond e).
Proof.
  intros He. destruct cond; [|done]. apply never_forbidden_throw. by apply He.
Qed.

Lemma never_forbidden_required {A} (o : option A) (e : Exception) :
  e ≠ ForbiddenException → never_forbidden (required o e).
Proof. intros He. destruct o; [done|]. by apply never_forbidden_throw. Qed.

Lemma never_forbidden_run_op (tbl : string) (op : TableOp) : never_forbidden (run_op tbl op).
Proof.
  intros w. destruct op; simpl.
  - by destruct (existsb _ _).
  - by destruct (column_types w !! _).
  - by destruct (existsb _ _).
Qed.

Lemma never_forbidden_run_ops (tbl : string) (ops : list TableOp) :
  never_forbidden (run_ops tbl ops).
Proof.
  induction ops as [|op ops IH]; simpl; [done|].
  apply never_forbidden_bind; [apply never_forbidden_run_op | done].
Qed.

Lemma never_forbidden_alterTable (tbl : string) (callback : Callback) :
  never_forbidden (alterTable tbl callback).
Proof. apply never_forbidden_run_ops. Qed.

Lemma never_forbidden_items_createOne (payload : PartialRelationMeta) :
  never_forbidden (items_createOne payload).
Proof.
  intros w. unfold items_createOne.
  destruct (p_many_collection payload), (p_many_field payload); try done.
  by destruct (existsb _ _).
Qed.

Lemma never_forbidden_items_updateOne (k : nat) (patch : PartialRelationMeta) :
  never_forbidden (items_updateOne k patch).
Proof. intros w. unfold items_updateOne. by case_match. Qed.

Lemma never_forbidden_delete_where (coll fld : string) : never_forbidden (delete_where coll fld).
Proof. done. Qed.

Create HintDb never_forbidden.

#[export] Hint Resolve never_forbidden_ret never_forbidden_get_world never_forbidden_emit
  never_forbidden_run_ops never_forbidden_items_createOne never_forbidden_items_updateOne
  never_forbidden_delete_where : never_forbidden.

Ltac never_forbidden :=
  repeat lazymatch goal with
    | |- never_forbidden (_ ≫= _) => apply never_forbidden_bind; [|intros]
    | |- never_forbidden (try_finally _ _) => apply never_forbidden_try_finally
    | |- never_forbidden (transaction _) => apply never_forbidden_transaction
    | |- never_forbidden (alterTable _ _) => apply never_forbidden_alterTable
    | |- never_forbidden (throw_if _ _) => apply never_forbidden_throw_if; intros; discriminate
    | |- never_forbidden (required _ _) => apply never_forbidden_required; discriminate
    | |- never_forbidden (throw _) => apply never_forbidden_throw; discriminate
    | |- never_forbidden (match ?x with _ => _ end) => destruct x
    | |- never_forbidden (if ?b then _ else _) => destruct b
    | |- never_forbidden _ => solve [auto with never_forbidden]
    end.

Section NoAccountability.

Context (getAllowedFields : option Accountability → string → gmap string (list string)).
Context (stitchRelations : list RelationMeta → list ForeignKey → list Relation).
Context (systemRelationRows : list RelationMeta).
Context (getDefaultIndexName : string → string → string → string).
Context (this : RelationsService).
Hypothesis absent : accountability this = None.

Lemma absent_not_admin : not_admin this = false.
Proof. unfold not_admin. by rewrite absent. Qed.

Lemma createOne_never_forbidden (relation : PartialRelation) :
  never_forbidden (createOne getDefaultIndexName this relation).
Proof.
  unfold createOne, createOne_validate, createOne_transaction, createOne_finally.
  rewrite absent_not_admin.
  never_forbidden.
Qed.

Lemma updateOne_never_forbidden (coll fld : string) (relation : PartialRelation) :
  never_forbidden (updateOne getDefaultIndexName this coll fld relation).
Proof.
  unfold updateOne, existing_relation, updateOne_transaction, clear_finally.
  rewrite absent_not_admin.
  never_forbidden.
Qed.

Lemma deleteOne_never_forbidden (coll fld : string) :
  never_forbidden (deleteOne this coll fld).
Proof.
  unfold deleteOne, existing_relation, deleteOne_transaction, clear_finally.
  rewrite absent_not_admin.
  never_forbidden.
Qed.

Lemma readAll_never_forbidden (coll : option string) :
  never_forbidden (readAll getAllowedFields stitchRelations systemRelationRows this coll).
Proof.
  unfold readAll. rewrite absent_not_admin. never_forbidden.
Qed.

Lemma readOne_check_absent (coll fld : string) (w : World) :
  readOne_check this coll fld w = (Ok tt, w).
Proof. unfold readOne_check. by rewrite absent. Qed.

Context (a : Accountability).
Hypothesis administrator : admin a = Some true.

Lemma administrator_not_admin : not_admin (with_accountability (Some a) this) = false.
Proof. unfold not_admin. simpl. by rewrite bool_decide_eq_true_2. Qed.

Lemma filterForbidden_same (relations : list Relation) :
  filterForbidden getAllowedFields this relations
  = filterForbidden getAllowedFields (with_accountability (Some a) this) relations.
Proof.
  unfold filterForbidden. rewrite absent. simpl. by rewrite bool_decide_eq_true_2.
Qed.

(** C10, as the code has it: without accountability every operation
    runs exactly as it does for an administrator. [createOne],
    [updateOne], [deleteOne] and [readAll] never raise Forbidden;
    [readOne] passes its permission checks, and raises Forbidden when,
    and only when, stitching leaves no descriptor for the field. *)
Theorem absent_accountability_as_administrator (w : World) :
  (∀ relation,
     createOne getDefaultIndexName this relation w
     = createOne getDefaultIndexName (with_accountability (Some a) this) relation w
     ∧ (createOne getDefaultIndexName this relation w).1 ≠ Throw ForbiddenException)
  ∧ (∀ coll fld relation,
       updateOne getDefaultIndexName this coll fld relation w
       = updateOne getDefaultIndexName (with_accountability (Some a) this) coll fld relation w
       ∧ (updateOne getDefaultIndexName this coll fld relation w).1 ≠ Throw ForbiddenException)
  ∧ (∀ coll fld,
       deleteOne this coll fld w = deleteOne (with_accountability (Some a) this) coll fld w
       ∧ (deleteOne this coll fld w).1 ≠ Throw ForbiddenException)
  ∧ (∀ coll,
       readAll getAllowedFields stitchRelations systemRelationRows this coll w
       = readAll getAllowedFields stitchRelations systemRelationRows
           (with_accountability (Some a) this) coll w
       ∧ (readAll getAllowedFields stitchRelations systemRelationRows this coll w).1
         ≠ Throw ForbiddenException)
  ∧ (∀ coll fld,
       readOne getAllowedFields stitchRelations this coll fld w
       = readOne getAllowedFields stitchRelations (with_accountability (Some a) this) coll fld w
       ∧ readOne_check this coll fld w = (Ok tt, w)
       ∧ ((readOne getAllowedFields stitchRelations this coll fld w).1
          = Throw ForbiddenException
          ↔ readOne_results getAllowedFields stitchRelations this coll fld w = [])).
Proof.
  pose proof absent_not_admin as Hthis. pose proof administrator_not_admin as Hthat.
  split_and!.
  - intros relation. split; [|apply createOne_never_forbidden].
    unfold createOne, createOne_validate. by rewrite Hthis, Hthat.
  - intros coll fld relation. split; [|apply updateOne_never_forbidden].
    unfold updateOne, existing_relation. by rewrite Hthis, Hthat.
  - intros coll fld. split; [|apply deleteOne_never_forbidden].
    unfold deleteOne, existing_relation. by rewrite Hthis, Hthat.
  - intros coll. split; [|apply readAll_never_forbidden].
    unfold readAll. rewrite Hthis, Hthat. simpl.
    unfold mbind, M_bind, get_world, mret, M_ret. simpl.
    by rewrite filterForbidden_same.
  - intros coll fld. split_and!.
    + unfold readOne, readOne_results, readOne_check. rewrite absent.
      simpl. rewrite bool_decide_eq_true_2 by done.
      unfold mbind, M_bind, get_world, mret, M_ret. simpl.
      by rewrite filterForbidden_same.
    + apply readOne_check_absent.
    + rewrite (readOne_checked _ _ _ _ _ _ (readOne_check_absent coll fld w)).
      by destruct (readOne_results _ _ _ _ _ _).
Qed.

End NoAccountability.

Lemma absent_accountability_as_administrator_witness :
  let this := Fixture.service None in
  accountability this = None
  ∧ admin Fixture.administrator = Some true
  ∧ deleteOne this "comments" "post_id" Fixture.world
    = deleteOne (Fixture.service (Some Fixture.administrator)) "comments" "post_id"
        Fixture.world
  ∧ (deleteOne this "comments" "post_id" Fixture.world).1 ≠ Throw ForbiddenException.
Proof.
  intros this. split; [reflexivity|]. split; [reflexivity|].
  destruct (absent_accountability_as_administrator Fixture.getAllowedFields
              Fixture.stitchRelations [] Fixture.getDefaultIndexName this eq_refl
              Fixture.administrator eq_refl Fixture.world) as (_ & _ & Hdelete & _).
  exact (Hdelete "comments" "post_id").
Defined.

(** C10, counterexample: without accountability, [readOne] on a field
    that has no relation raises Forbidden. *)
Lemma readOne_absent_accountability_counterexample :
  accountability (Fixture.service None) = None
  ∧ (readOne Fixture.getAllowedFields Fixture.stitchRelations (Fixture.service None)
       "articles" "title" Fixture.world).1
    = Throw ForbiddenException.
Proof. split; [reflexivity|]. vm_compute. reflexivity. Qed.

(** * Further properties of the service *)

(** ** The access filter, relation by relation *)

Lemma filter_app_ {A} (p : A → bool) (l1 l2 : list A) :
  List.filter p (l1 ++ l2) = List.filter p l1 ++ List.filter p l2.
Proof.
  induction l1 as [|x l1 IH]; simpl; [done|].
  destruct (p x); simpl; by rewrite IH.
Qed.

Lemma filter_none {A} (p : A → bool) (l : list A) :
  (∀ x, x ∈ l → p x = false) → List.filter p l = [].
Proof.
  induction l as [|x l IH]; simpl; [done|]. intros H.
  rewrite (H x) by left. apply IH. intros y Hy. apply H. by right.
Qed.

(** X1: [filterForbidden] decides for each relation on its own: the
    filtered concatenation of two lists is the concatenation of the
    two filtered lists, for every caller. *)
Theorem filterForbidden_app
    (getAllowedFields : option Accountability → string → gmap string (list string))
    (this : RelationsService) (relations1 relations2 : list Relation) :
  filterForbidden getAllowedFields this (relations1 ++ relations2)
  = filterForbidden getAllowedFields this relations1
    ++ filterForbidden getAllowedFields this relations2.
Proof.
  unfold filterForbidden. destruct (accountability this) as [a|]; [|done].
  case_bool_decide; [done|]. apply filter_app_.
Qed.

Lemma allowedCollections_read (a : Accountability) (c : string) :
  c ∈ allowedCollections a →
  ∃ ps permission, permissions a = Some ps ∧ permission ∈ ps
                   ∧ action permission = "read" ∧ perm_collection permission = c.
Proof.
  unfold allowedCollections. destruct (permissions a) as [ps|]; [|by intros ?%elem_of_nil].
  intros (permission & -> & Hin)%list_elem_of_fmap.
  apply elem_of_filter in Hin as [Hin Hread%bool_decide_eq_true].
  exists ps, permission. done.
Qed.

(** X2: a caller that is present, is not an administrator and holds no
    read permission at all (no permission list, or no record whose
    action is read) is shown no relation, whatever the permission
    oracle answers. *)
Theorem filterForbidden_without_read_permission
    (getAllowedFields : option Accountability → string → gmap string (list string))
    (this : RelationsService) (a : Accountability) (relations : list Relation) :
  accountability this = Some a →
  admin a ≠ Some true →
  (∀ ps permission,
     permissions a = Some ps → permission ∈ ps → action permission ≠ "read") →
  filterForbidden getAllowedFields this relations = [].
Proof.
  intros Hacc Hadmin Hnone. rewrite (filterForbidden_filter _ _ a) by done.
  apply filter_none. intros r _. apply not_true_is_false. intros Hkeep.
  apply callback_survives in Hkeep as [Hcoll _].
  apply allowedCollections_read in Hcoll as (ps & permission & Hps & Hin & Hread & _).
  by eapply Hnone.
Qed.

Lemma filterForbidden_without_read_permission_witness :
  let stranger :=
    {| admin := None;
       permissions :=
         Some [ {| action := "create"; perm_collection := "articles";
                   fields := Some ["*"] |} ] |} in
  let this := Fixture.service (Some stranger) in
  accountability this = Some stranger
  ∧ admin stranger ≠ Some true
  ∧ filterForbidden Fixture.getAllowedFields this
      [Fixture.author_relation; Fixture.post_relation; Fixture.item_relation] = [].
Proof.
  intros stranger this. split; [reflexivity|]. split; [discriminate|].
  apply (filterForbidden_without_read_permission Fixture.getAllowedFields this stranger);
    [reflexivity | discriminate |].
  intros ps permission [= <-] Hin. apply list_elem_of_In in Hin.
  destruct Hin as [<- | []]. discriminate.
Defined.

(** ** readAll *)

Section ReadAll.

Context (getAllowedFields : option Accountability → string → gmap string (list string)).
Context (stitchRelations : list RelationMeta → list ForeignKey → list Relation).
Context (systemRelationRows : list RelationMeta).
Context (this : RelationsService).

(** The metadata rows [readAll] hands to the stitcher. *)
Lemma readAll_run (coll : option string) (w : World) :
  readAll getAllowedFields stitchRelations systemRelationRows this coll w
  = if not_admin this && negb (hasReadAccess this)
    then (Throw ForbiddenException, w)
    else (Ok (filterForbidden getAllowedFields this
                (stitchRelations
                   (List.filter
                      (λ metaRow,
                         match truthy coll with
                         | None => true
                         | Some c => bool_decide (many_collection metaRow = c)
                         end)
                      (readByQuery_collection coll w ++ systemRelationRows))
                   (foreignKeys coll w))), w).
Proof.
  unfold readAll, mbind, M_bind, throw_if, throw, get_world, mret, M_ret.
  by destruct (not_admin this && negb (hasReadAccess this)).
Qed.

(** X3: [readAll] raises Forbidden exactly for a caller that is present,
    is not an administrator and has no read permission on
    directus_relations; it raises nothing else, and it never writes to
    the store. *)
Theorem readAll_forbidden_iff (coll : option string) (w : World) :
  let run := readAll getAllowedFields stitchRelations systemRelationRows this coll w in
  (run.1 = Throw ForbiddenException
   ↔ ∃ a, accountability this = Some a ∧ admin a ≠ Some true ∧ hasReadAccess this = false)
  ∧ (∀ e, run.1 = Throw e → e = ForbiddenException)
  ∧ run.2 = w.
Proof.
  simpl. rewrite readAll_run.
  assert (Hcond : not_admin this && negb (hasReadAccess this) = true
                  ↔ ∃ a, accountability this = Some a ∧ admin a ≠ Some true
                         ∧ hasReadAccess this = false).
  { rewrite andb_true_iff, negb_true_iff. unfold not_admin.
    destruct (accountability this) as [a|]; [|naive_solver].
    rewrite negb_true_iff, bool_decide_eq_false. naive_solver. }
  destruct (not_admin this && negb (hasReadAccess this)); simpl.
  - split_and!; [|naive_solver|done]. split; [intros _; by apply Hcond | done].
  - split_and!; [|done..]. split; [done|]. intros H. by apply Hcond in H.
Qed.

(** X4: what [readAll] returns to a caller that is present and not an
    administrator passes the access rule: every returned relation has
    its collection, and its related collection when it has one, among
    the collections the caller may read, and its field allowed on its
    collection. *)
Theorem readAll_returns_visible (a : Accountability) (coll : option string) (w w' : World)
    (relations : list Relation) :
  accountability this = Some a →
  admin a ≠ Some true →
  readAll getAllowedFields stitchRelations systemRelationRows this coll w = (Ok relations, w') →
  ∀ r, r ∈ relations →
    collection r ∈ allowedCollections a
    ∧ (∀ related, truthy (related_collection r) = Some related →
                  related ∈ allowedCollections a)
    ∧ field_allowed (getAllowedFields (Some a) "read") (collection r) (field r).
Proof.
  intros Hacc Hadmin. rewrite readAll_run.
  destruct (not_admin this && negb (hasReadAccess this)); [done|].
  intros [= <- _] r Hin.
  rewrite (filterForbidden_filter _ _ a) in Hin by done.
  apply elem_of_filter in Hin as [_ Hkeep].
  apply callback_survives in Hkeep as (Hcoll & Hrel & _ & Hfield & _). done.
Qed.

(** X5: with a collection given, [readAll] looks at that collection
    only: metadata rows and foreign keys of other collections, added to
    the store, change nothing in what it returns. *)
Theorem readAll_ignores_other_collections (coll : string) (w : World)
    (rows : list RelationMeta) (fks : list ForeignKey) :
  coll ≠ "" →
  (∀ row, row ∈ rows → many_collection row ≠ coll) →
  (∀ fk, fk ∈ fks → table fk ≠ coll) →
  (readAll getAllowedFields stitchRelations systemRelationRows this (Some coll)
     (set_directus_relations (directus_relations w ++ rows)
        (set_foreign_keys (foreign_keys w ++ fks) w))).1
  = (readAll getAllowedFields stitchRelations systemRelationRows this (Some coll) w).1.
Proof.
  intros Hcoll Hrows Hfks. rewrite !readAll_run.
  destruct (not_admin this && negb (hasReadAccess this)); [done|]. simpl.
  unfold readByQuery_collection, foreignKeys. simpl.
  rewrite bool_decide_eq_false_2 by done. simpl.
  rewrite !filter_app_.
  rewrite (filter_none _ rows), (filter_none _ fks), !app_nil_r; [done|..].
  - intros fk Hin. apply bool_decide_eq_false. by apply Hfks.
  - intros row Hin. apply bool_decide_eq_false. by apply Hrows.
Qed.

End ReadAll.

Lemma readAll_forbidden_iff_witness :
  let outsider :=
    {| admin := Some false;
       permissions :=
         Some [ {| action := "read"; perm_collection := "articles"; fields := Some ["*"] |} ] |} in
  let this := Fixture.service (Some outsider) in
  readAll Fixture.getAllowedFields Fixture.stitchRelations [] this None Fixture.world
  = (Throw ForbiddenException, Fixture.world).
Proof.
  intros outsider this.
  destruct (readAll_forbidden_iff Fixture.getAllowedFields Fixture.stitchRelations [] this
              None Fixture.world) as ([_ Hforbidden] & _ & Hworld).
  apply injective_projections; [|exact Hworld].
  apply Hforbidden. exists outsider. split; [reflexivity|]. split; [discriminate|].
  vm_compute. reflexivity.
Defined.

Lemma readAll_returns_visible_witness :
  let this := Fixture.service (Some Fixture.editor) in
  let item_meta :=
    {| id := 2; many_collection := "articles"; many_field := "item";
       one_collection := None; one_field := Some "articles";
       one_collection_field := Some "collection";
       one_allowed_collections := Some ["articles"];
       junction_field := None; sort_field := None |} in
  let w := set_directus_relations [Fixture.post_meta; item_meta] Fixture.world in
  accountability this = Some Fixture.editor
  ∧ admin Fixture.editor ≠ Some true
  ∧ readAll Fixture.getAllowedFields Fixture.stitchRelations [] this (Some "articles") w
    = (Ok [Fixture.item_relation], w)
  ∧ collection Fixture.item_relation ∈ allowedCollections Fixture.editor.
Proof.
  intros this item_meta w.
  assert (Hrun : readAll Fixture.getAllowedFields Fixture.stitchRelations [] this
                   (Some "articles") w = (Ok [Fixture.item_relation], w))
    by (vm_compute; reflexivity).
  split; [reflexivity|]. split; [discriminate|]. split; [exact Hrun|].
  destruct (readAll_returns_visible Fixture.getAllowedFields Fixture.stitchRelations []
              this Fixture.editor (Some "articles") w w [Fixture.item_relation]
              eq_refl ltac:(discriminate) Hrun Fixture.item_relation ltac:(left))
    as [Hcoll _].
  exact Hcoll.
Defined.

Lemma readAll_ignores_other_collections_witness :
  let this := Fixture.service None in
  "comments" ≠ ""
  ∧ (readAll Fixture.getAllowedFields Fixture.stitchRelations [] this (Some "comments")
       (set_directus_relations
          (directus_relations Fixture.drifted ++ [])
          (set_foreign_keys (foreign_keys Fixture.drifted ++ [Fixture.author_fk])
             Fixture.drifted))).1
    = (readAll Fixture.getAllowedFields Fixture.stitchRelations [] this (Some "comments")
         Fixture.drifted).1.
Proof.
  intros this. split; [discriminate|].
  apply (readAll_ignores_other_collections Fixture.getAllowedFields
           Fixture.stitchRelations [] this "comments" Fixture.drifted [] [Fixture.author_fk]).
  - discriminate.
  - intros row Hin. by apply elem_of_nil in Hin.
  - intros fk Hin. apply list_elem_of_In in Hin. destruct Hin as [<- | []]. discriminate.
Defined.

(** ** readOne, when it answers *)

Section ReadOne.

Context (getAllowedFields : option Accountability → string → gmap string (list string)).
Context (stitchRelations : list RelationMeta → list ForeignKey → list Relation).
Context (this : RelationsService) (a : Accountability).
Hypothesis present : accountability this = Some a.
Hypothesis not_administrator : admin a ≠ Some true.

Lemma readOne_check_run (coll fld : string) (w : World) :
  readOne_check this coll fld w
  = (if negb (hasReadAccess this) then Throw ForbiddenException
     else match (permissions a ≫=
                   List.find (λ permission,
                                bool_decide (action permission = "read")
                                && bool_decide (perm_collection permission = coll)))
                ≫= fields with
          | None => Throw ForbiddenException
          | Some allowed =>
              if negb (includes "*" allowed) && negb (includes fld allowed)
              then Throw ForbiddenException else Ok tt
          end, w).
Proof.
  unfold readOne_check, mbind, M_bind, throw_if, required, throw, mret, M_ret.
  rewrite present. rewrite bool_decide_eq_false_2 by done.
  destruct (negb (hasReadAccess this)); [done|].
  unfold mbind, option_bind.
  destruct (permissions a) as [ps|]; [|done].
  destruct (List.find _ ps) as [permission|]; [|done].
  destruct (fields permission) as [allowed|]; simpl; [|done].
  by destruct (negb (includes "*" allowed) && negb (includes fld allowed)).
Qed.

(** X6: when [readOne] answers a caller that is present and not an
    administrator, the caller has read permission on directus_relations,
    its first read permission record for the collection lists the
    wildcard or the field, and the answer is the first descriptor left
    by the filter, so it passes the access rule; the store is as it
    was. *)
Theorem readOne_answers_only_permitted (coll fld : string) (w w' : World) (r : Relation) :
  readOne getAllowedFields stitchRelations this coll fld w = (Ok r, w') →
  hasReadAccess this = true
  ∧ (∃ permission allowed,
       permissions a ≫=
         List.find (λ permission,
                      bool_decide (action permission = "read")
                      && bool_decide (perm_collection permission = coll))
       = Some permission
       ∧ fields permission = Some allowed
       ∧ ("*" ∈ allowed ∨ fld ∈ allowed))
  ∧ head (readOne_results getAllowedFields stitchRelations this coll fld w) = Some r
  ∧ survives (allowedCollections a) (getAllowedFields (Some a) "read") r
  ∧ w' = w.
Proof.
  unfold readOne. unfold mbind at 1, M_bind. rewrite readOne_check_run.
  destruct (hasReadAccess this); simpl; [|done].
  destruct (permissions a ≫= List.find _) as [permission|] eqn:Hrecord; simpl; [|done].
  destruct (fields permission) as [allowed|] eqn:Hfields; simpl; [|done].
  destruct (includes "*" allowed) eqn:Hwild, (includes fld allowed) eqn:Hfld; simpl;
    try done;
    (unfold mbind, M_bind, get_world; simpl;
     destruct (readOne_results _ _ _ _ _ _) as [|r0 rest] eqn:Hresults; simpl; [done|];
     intros [= -> <-];
     split; [done|];
     split; [exists permission, allowed; rewrite ?includes_true in *; naive_solver|];
     split; [done|]; split; [|done];
     assert (Hin : r ∈ readOne_results getAllowedFields stitchRelations this coll fld w)
       by (rewrite Hresults; left);
     unfold readOne_results in Hin;
     rewrite (filterForbidden_filter _ _ a) in Hin by done;
     apply elem_of_filter in Hin as [_ Hkeep];
     by apply callback_survives).
Qed.

End ReadOne.

Lemma readOne_answers_only_permitted_witness :
  let reader :=
    {| admin := Some false;
       permissions :=
         Some [ {| action := "read"; perm_collection := "directus_relations";
                   fields := Some ["*"] |};
                {| action := "read"; perm_collection := "comments";
                   fields := Some ["id"; "post_id"] |};
                {| action := "read"; perm_collection := "articles"; fields := Some ["*"] |} ] |} in
  let this := Fixture.service (Some reader) in
  accountability this = Some reader
  ∧ admin reader ≠ Some true
  ∧ readOne Fixture.getAllowedFields Fixture.stitchRelations this "comments" "post_id"
      Fixture.world = (Ok Fixture.post_relation, Fixture.world)
  ∧ hasReadAccess this = true.
Proof.
  intros reader this.
  assert (Hrun : readOne Fixture.getAllowedFields Fixture.stitchRelations this "comments"
                   "post_id" Fixture.world = (Ok Fixture.post_relation, Fixture.world))
    by (vm_compute; reflexivity).
  split; [reflexivity|]. split; [discriminate|]. split; [exact Hrun|].
  destruct (readOne_answers_only_permitted Fixture.getAllowedFields Fixture.stitchRelations
              this reader eq_refl ltac:(discriminate) "comments" "post_id" Fixture.world
              Fixture.world Fixture.post_relation Hrun) as [Haccess _].
  exact Haccess.
Defined.

(** ** The mutations: who may call them, and what a failure leaves *)

Lemma createOne_validate_world (this : RelationsService) (relation : PartialRelation)
    (w : World) :
  (createOne_validate this relation w).2 = w.
Proof.
  unfold createOne_validate, mbind, M_bind, throw_if, required, throw, mret, M_ret.
  by repeat (case_match; simplify_eq/=).
Qed.

Lemma existing_relation_world (this : RelationsService) (coll fld : string) (w : World) :
  (existing_relation this coll fld w).2 = w.
Proof.
  unfold existing_relation, mbind, M_bind, throw_if, required, throw, mret, M_ret.
  by repeat (case_match; simplify_eq/=).
Qed.

(** The writes to directus_relations never touch the schema. *)
Lemma items_createOne_schema (payload : PartialRelationMeta) (w : World) :
  foreign_keys (items_createOne payload w).2 = foreign_keys w
  ∧ column_types (items_createOne payload w).2 = column_types w.
Proof.
  unfold items_createOne.
  destruct (p_many_collection payload), (p_many_field payload); try done.
  by destruct (existsb _ _).
Qed.

Lemma items_updateOne_schema (k : nat) (patch : PartialRelationMeta) (w : World) :
  foreign_keys (items_updateOne k patch w).2 = foreign_keys w
  ∧ column_types (items_updateOne k patch w).2 = column_types w.
Proof. unfold items_updateOne. by case_match. Qed.

(** The [if (relation.meta)] block of [updateOne]. *)
Lemma meta_step_schema (relation : PartialRelation) (existingRelation : Relation)
    (w1 : World) :
  let step :=
    match r_meta relation with
    | Some relation_meta =>
        match meta existingRelation with
        | Some existingMeta => items_updateOne (id existingMeta) relation_meta
        | None =>
            items_createOne
              (merge_meta relation_meta (r_collection relation) (r_field relation)
                          (truthy (related_collection existingRelation)))
        end
    | None => mret tt
    end in
  foreign_keys (step w1).2 = foreign_keys w1 ∧ column_types (step w1).2 = column_types w1.
Proof.
  simpl. destruct (r_meta relation) as [m|]; [|done].
  destruct (meta existingRelation); [apply items_updateOne_schema | apply items_createOne_schema].
Qed.

Section Callers.

Context (getDefaultIndexName : string → string → string → string).
Context (this : RelationsService) (w : World).

(** X7: for a caller that is present and not an administrator,
    [createOne], [updateOne] and [deleteOne] raise Forbidden before they
    look at their arguments, and leave the store as it is: no hook is
    called, no transaction is opened, no cache entry is cleared. *)
Theorem mutations_need_administrator (a : Accountability) :
  accountability this = Some a →
  admin a ≠ Some true →
  (∀ relation,
     createOne getDefaultIndexName this relation w = (Throw ForbiddenException, w))
  ∧ (∀ coll fld relation,
       updateOne getDefaultIndexName this coll fld relation w = (Throw ForbiddenException, w))
  ∧ (∀ coll fld, deleteOne this coll fld w = (Throw ForbiddenException, w)).
Proof.
  intros Hacc Hadmin.
  assert (Hna : not_admin this = true).
  { unfold not_admin. rewrite Hacc. by rewrite bool_decide_eq_false_2. }
  split_and!; intros.
  - unfold createOne, createOne_validate. by rewrite Hna.
  - unfold updateOne, existing_relation. by rewrite Hna.
  - unfold deleteOne, existing_relation. by rewrite Hna.
Qed.

(** X8: for a caller that passes the administrator check, [updateOne]
    and [deleteOne] check, in this order, that the collection exists,
    that the field exists on it, and that the field has a relation;
    the first check that fails raises InvalidPayload with its own
    message and leaves the store as it is. *)
Theorem update_delete_validation_order (coll fld : string) :
  not_admin this = false →
  let rejected message :=
    (∀ relation,
       updateOne getDefaultIndexName this coll fld relation w
       = (Throw (InvalidPayloadException message), w))
    ∧ deleteOne this coll fld w = (Throw (InvalidPayloadException message), w) in
  (hasCollection (this_schema this) coll = false →
   rejected ("Collection " +:+ quoted coll +:+ " doesn't exist"))
  ∧ (hasCollection (this_schema this) coll = true →
     (hasField (this_schema this) coll fld = false →
      rejected ("Field " +:+ quoted fld +:+ " doesn't exist in collection " +:+ quoted coll))
     ∧ (hasField (this_schema this) coll fld = true →
        getRelationsForField (this_schema this) coll fld = None →
        rejected ("Field " +:+ quoted fld +:+ " in collection " +:+ quoted coll
                  +:+ " doesn't have a relationship."))).
Proof.
  intros Hna rejected. subst rejected. simpl.
  split; [|intros Hcoll; split].
  - intros Hcoll. split; intros;
      unfold updateOne, deleteOne, existing_relation; by rewrite Hna, Hcoll.
  - intros Hfld. split; intros;
      unfold updateOne, deleteOne, existing_relation; by rewrite Hna, Hcoll, Hfld.
  - intros Hfld Hrel. split; intros;
      unfold updateOne, deleteOne, existing_relation; by rewrite Hna, Hcoll, Hfld, Hrel.
Qed.

(** [createOne] hands knex a callback that has added nothing when it
    returns: its transaction leaves the schema as it is. *)
Lemma createOne_transaction_schema (relation : PartialRelation) (coll fld : string)
    (metaRow : PartialRelationMeta) (w0 : World) :
  let out := createOne_transaction getDefaultIndexName this relation coll fld metaRow w0 in
  foreign_keys out.2 = foreign_keys w0 ∧ column_types out.2 = column_types w0.
Proof.
  simpl. unfold createOne_transaction.
  assert (Halter :
            match truthy (r_related_collection relation) with
            | Some related =>
                alterTable coll (createOne_alter getDefaultIndexName this relation coll fld related)
            | None => mret tt
            end w0 = (Ok tt, w0)) by (by destruct (truthy _)).
  erewrite bind_Ok by exact Halter. apply items_createOne_schema.
Qed.

Lemma createOne_schema_untouched (relation : PartialRelation) :
  foreign_keys (createOne getDefaultIndexName this relation w).2 = foreign_keys w
  ∧ column_types (createOne getDefaultIndexName this relation w).2 = column_types w.
Proof.
  pose proof (createOne_validate_world this relation w) as Hworld.
  destruct (createOne_validate this relation w) as [[[coll fld]|e'] w1] eqn:Hvalid;
    simpl in Hworld; subst w1.
  - rewrite (createOne_run getDefaultIndexName this w relation coll fld Hvalid). simpl.
    unfold transaction. set (w0 := set_log _ (set_log _ w)).
    destruct (createOne_transaction_schema relation coll fld
                (merge_meta (default empty_meta (r_meta relation)) (r_collection relation)
                            (r_field relation) (truthy (r_related_collection relation))) w0)
      as [Hfks Htypes]. simpl in Hfks, Htypes.
    destruct (createOne_transaction _ _ _ _ _ _ w0) as [[[]|e] w2]; simpl in *; [done|].
    rewrite Hfks, Htypes. by destruct (transactional_ddl w).
  - unfold createOne. by erewrite bind_Throw by exact Hvalid.
Qed.

Lemma createOne_failure (relation : PartialRelation) (e : Exception) :
  (createOne getDefaultIndexName this relation w).1 = Throw e →
  same_database w (createOne getDefaultIndexName this relation w).2.
Proof.
  destruct (createOne_schema_untouched relation) as [Hfks Htypes].
  intros Hthrow. split; [done|]. split; [|done].
  pose proof (createOne_validate_world this relation w) as Hworld.
  destruct (createOne_validate this relation w) as [[[coll fld]|e'] w1] eqn:Hvalid;
    simpl in Hworld; subst w1.
  - revert Hthrow.
    rewrite (createOne_run getDefaultIndexName this w relation coll fld Hvalid). simpl.
    unfold transaction. by destruct (createOne_transaction _ _ _ _ _ _ _) as [[[]|e2] w2].
  - unfold createOne. by erewrite bind_Throw by exact Hvalid.
Qed.

(** In [deleteOne] only the drop, its first statement, can fail. *)
Lemma deleteOne_failure (coll fld : string) (e : Exception) :
  (deleteOne this coll fld w).1 = Throw e →
  same_database w (deleteOne this coll fld w).2.
Proof.
  pose proof (existing_relation_world this coll fld w) as Hworld.
  destruct (existing_relation this coll fld w) as [[existingRelation|e'] w1] eqn:Hexisting;
    simpl in Hworld; subst w1.
  - rewrite (deleteOne_run this w coll fld existingRelation Hexisting). simpl.
    unfold transaction. set (w0 := set_log _ (set_log _ w)).
    pose proof (deleteOne_transaction_run coll fld existingRelation w0) as Hrun.
    simpl in Hrun.
    destruct (truthy (schema existingRelation ≫= constraint_name)) as [name|].
    + case_bool_decide; [destruct (existsb _ _)|]; rewrite Hrun; simpl; try done.
      intros _. unfold same_database. simpl. by destruct (transactional_ddl w).
    + by rewrite Hrun.
  - unfold deleteOne. by erewrite bind_Throw by exact Hexisting.
Qed.

(** The transaction of [updateOne] changes no column type; of the
    foreign keys it can only drop the recorded constraint. *)
Lemma updateOne_transaction_schema (coll fld : string) (relation : PartialRelation)
    (existingRelation : Relation) (w0 : World) :
  let out :=
    updateOne_transaction getDefaultIndexName this coll fld relation existingRelation w0 in
  column_types out.2 = column_types w0
  ∧ (foreign_keys out.2 = foreign_keys w0
     ∨ ∃ name, foreign_keys out.2
               = List.filter (λ fk, negb (has_constraint coll name fk)) (foreign_keys w0)).
Proof.
  simpl. unfold updateOne_transaction.
  assert (Halter :
            ∀ related,
              alterTable coll (updateOne_alter getDefaultIndexName this coll fld relation
                                 existingRelation related) w0 = (Ok tt, w0)
              ∨ (∃ e, alterTable coll (updateOne_alter getDefaultIndexName this coll fld
                                         relation existingRelation related) w0
                      = (Throw e, w0))
              ∨ ∃ name,
                  alterTable coll (updateOne_alter getDefaultIndexName this coll fld relation
                                     existingRelation related) w0
                  = (Ok tt, set_foreign_keys
                              (List.filter (λ fk, negb (has_constraint coll name fk))
                                           (foreign_keys w0)) w0)).
  { intros related. unfold alterTable, updateOne_alter.
    destruct (schema existingRelation) as [existingSchema|]; simpl; [|by left].
    unfold mbind, M_bind, mret, M_ret. simpl.
    destruct (existsb _ _); [|right; left; eauto]. right. right. eauto. }
  pose proof (meta_step_schema relation existingRelation) as Hstep. simpl in Hstep.
  destruct (truthy (related_collection existingRelation)) as [related|].
  - destruct (Halter related) as [Hrun | [[e Hrun] | [name Hrun]]].
    + erewrite bind_Ok by exact Hrun. destruct (Hstep w0) as [-> ->]. by split; [|left].
    + erewrite bind_Throw by exact Hrun. by split; [|left].
    + erewrite bind_Ok by exact Hrun. destruct (Hstep (set_foreign_keys
        (List.filter (λ fk, negb (has_constraint coll name fk)) (foreign_keys w0)) w0))
        as [-> ->].
      split; [done|]. right. by exists name.
  - erewrite bind_Ok by reflexivity. destruct (Hstep w0) as [-> ->]. by split; [|left].
Qed.

(** X9: what a mutation that raises leaves behind. A failed
    [createOne] or [deleteOne] leaves the database as it was, on every
    backend: [createOne] runs no schema statement, so only its insert
    can fail, and in [deleteOne] only the drop, its first statement, can
    fail. A failed [updateOne] leaves the metadata rows and the column
    types as they were; its foreign keys are as they were on a backend
    that rolls schema statements back, and otherwise are as they were
    or lack a constraint of the relation's collection: the recorded
    one, dropped before the write to directus_relations failed. *)
Theorem failed_mutation_database (e : Exception) :
  (∀ relation,
     (createOne getDefaultIndexName this relation w).1 = Throw e →
     same_database w (createOne getDefaultIndexName this relation w).2)
  ∧ (∀ coll fld,
       (deleteOne this coll fld w).1 = Throw e →
       same_database w (deleteOne this coll fld w).2)
  ∧ (∀ coll fld relation,
       let out := updateOne getDefaultIndexName this coll fld relation w in
       out.1 = Throw e →
       directus_relations out.2 = directus_relations w
       ∧ column_types out.2 = column_types w
       ∧ (transactional_ddl w = true → foreign_keys out.2 = foreign_keys w)
       ∧ (foreign_keys out.2 = foreign_keys w
          ∨ ∃ name, foreign_keys out.2
                    = List.filter (λ fk, negb (has_constraint coll name fk))
                                  (foreign_keys w))).
Proof.
  split_and!.
  - intros relation. apply createOne_failure.
  - intros coll fld. apply deleteOne_failure.
  - intros coll fld relation. simpl.
    pose proof (existing_relation_world this coll fld w) as Hworld.
    destruct (existing_relation this coll fld w) as [[existingRelation|e'] w1] eqn:Hexisting;
      simpl in Hworld; subst w1.
    + rewrite (updateOne_run getDefaultIndexName this w coll fld relation existingRelation
                 Hexisting). simpl.
      unfold transaction. set (w0 := set_log _ (set_log _ w)).
      destruct (updateOne_transaction_schema coll fld relation existingRelation w0)
        as [Htypes Hfks]. simpl in Htypes, Hfks.
      destruct (updateOne_transaction _ _ _ _ _ _ w0) as [[[]|e2] w2]; simpl in *; [done|].
      intros _. rewrite Htypes.
      destruct (transactional_ddl w); split_and!; try done; by left.
    + unfold updateOne. erewrite bind_Throw by exact Hexisting. simpl.
      intros _. split_and!; try done; by left.
Qed.

End Callers.

Lemma mutations_need_administrator_witness :
  let this := Fixture.service (Some Fixture.editor) in
  accountability this = Some Fixture.editor
  ∧ admin Fixture.editor ≠ Some true
  ∧ deleteOne this "comments" "post_id" Fixture.world
    = (Throw ForbiddenException, Fixture.world).
Proof.
  intros this. split; [reflexivity|]. split; [discriminate|].
  destruct (mutations_need_administrator Fixture.getDefaultIndexName this Fixture.world
              Fixture.editor eq_refl ltac:(discriminate)) as (_ & _ & Hdelete).
  exact (Hdelete "comments" "post_id").
Defined.

Lemma update_delete_validation_order_witness :
  let this := Fixture.service (Some Fixture.administrator) in
  not_admin this = false
  ∧ hasCollection (this_schema this) "articles" = true
  ∧ hasField (this_schema this) "articles" "title" = true
  ∧ getRelationsForField (this_schema this) "articles" "title" = None
  ∧ deleteOne this "articles" "title" Fixture.world
    = (Throw (InvalidPayloadException
                ("Field " +:+ quoted "title" +:+ " in collection " +:+ quoted "articles"
                 +:+ " doesn't have a relationship.")), Fixture.world).
Proof.
  intros this.
  assert (Hcoll : hasCollection (this_schema this) "articles" = true)
    by (vm_compute; reflexivity).
  assert (Hfld : hasField (this_schema this) "articles" "title" = true)
    by (vm_compute; reflexivity).
  assert (Hrel : getRelationsForField (this_schema this) "articles" "title" = None)
    by (vm_compute; reflexivity).
  split; [reflexivity|]. split; [exact Hcoll|]. split; [exact Hfld|]. split; [exact Hrel|].
  destruct (update_delete_validation_order Fixture.getDefaultIndexName this Fixture.world
              "articles" "title" eq_refl) as [_ Hexists].
  destruct (Hexists Hcoll) as [_ Hfield].
  destruct (Hfield Hfld Hrel) as [_ Hdelete].
  exact Hdelete.
Defined.

Lemma failed_mutation_database_witness :
  let this := Fixture.service (Some Fixture.administrator) in
  let payload :=
    {| r_collection := None; r_field := None; r_related_collection := None;
       r_schema_on_delete := None; r_meta := Some empty_meta |} in
  let out := updateOne Fixture.getDefaultIndexName this "articles" "author_id" payload
               Fixture.world in
  out.1 = Throw (DatabaseError "null value in a NOT NULL column")
  ∧ directus_relations out.2 = [Fixture.post_meta]
  ∧ column_types out.2 = column_types Fixture.world
  ∧ transactional_ddl Fixture.world = false
  ∧ foreign_keys out.2 = [Fixture.post_fk].
Proof.
  intros this payload out. subst out.
  assert (Hthrow : (updateOne Fixture.getDefaultIndexName this "articles" "author_id" payload
                      Fixture.world).1
                   = Throw (DatabaseError "null value in a NOT NULL column"))
    by (vm_compute; reflexivity).
  split; [exact Hthrow|].
  destruct (failed_mutation_database Fixture.getDefaultIndexName this Fixture.world
              (DatabaseError "null value in a NOT NULL column")) as (_ & _ & Hupdate).
  destruct (Hupdate "articles" "author_id" payload Hthrow) as (Hrows & Htypes & _ & _).
  split; [exact Hrows|]. split; [exact Htypes|]. split; [reflexivity|].
  vm_compute. reflexivity.
Defined.

(** ** What the database statements touch *)

Lemma bind_Ok_inv {A B} (m : M A) (f : A → M B) (w w' : World) (b : B) :
  (m ≫= f) w = (Ok b, w') → ∃ a w1, m w = (Ok a, w1) ∧ f a w1 = (Ok b, w').
Proof.
  unfold mbind, M_bind. destruct (m w) as [[a|e] w1]; [eauto|done].
Qed.

Lemma transaction_Ok_inv {A} (body : M A) (w w' : World) (a : A) :
  transaction body w = (Ok a, w') → body (set_log (log w ++ [Transaction]) w) = (Ok a, w').
Proof.
  unfold transaction. destruct (body _) as [[a'|e] w1]; [|done]. by intros [= <- <-].
Qed.

(** The database statements never touch directus_relations. *)
Lemma run_ops_directus_relations (tbl : string) (ops : list TableOp) (w : World) :
  directus_relations (run_ops tbl ops w).2 = directus_relations w.
Proof.
  revert w. induction ops as [|op ops IH]; intros w; simpl; [done|].
  unfold mbind, M_bind.
  assert (Hop : directus_relations (run_op tbl op w).2 = directus_relations w).
  { destruct op; simpl.
    - by destruct (existsb _ _).
    - by destruct (column_types w !! _).
    - by destruct (existsb _ _). }
  destruct (run_op tbl op w) as [[[]|e] w1]; simpl in *; [|done].
  by rewrite IH.
Qed.

Lemma alterTable_directus_relations (tbl : string) (callback : Callback) (w : World) :
  directus_relations (alterTable tbl callback w).2 = directus_relations w.
Proof. apply run_ops_directus_relations. Qed.

Lemma items_createOne_Ok (payload : PartialRelationMeta) (w w' : World) :
  items_createOne payload w = (Ok tt, w') →
  ∃ mc mf,
    p_many_collection payload = Some mc ∧ p_many_field payload = Some mf
    ∧ w' = set_directus_relations
             (directus_relations w ++
                [{| id := default (fresh_id (directus_relations w)) (p_id payload);
                    many_collection := mc; many_field := mf;
                    one_collection := default None (p_one_collection payload);
                    one_field := default None (p_one_field payload);
                    one_collection_field := default None (p_one_collection_field payload);
                    one_allowed_collections :=
                      default None (p_one_allowed_collections payload);
                    junction_field := default None (p_junction_field payload);
                    sort_field := default None (p_sort_field payload) |}]) w.
Proof.
  unfold items_createOne.
  destruct (p_many_collection payload) as [mc|], (p_many_field payload) as [mf|]; try done.
  destruct (existsb _ _); [done|]. intros [= <-]. eauto.
Qed.

(** ** createOne, when it succeeds *)

Section CreateOneEffects.

Context (getDefaultIndexName : string → string → string → string).
Context (this : RelationsService) (w : World).
Context (relation : PartialRelation) (coll fld : string).
Hypothesis validated : createOne_validate this relation w = (Ok (coll, fld), w).

Lemma createOne_Ok_inv (w' : World) :
  createOne getDefaultIndexName this relation w = (Ok tt, w') →
  ∃ w2,
    createOne_transaction getDefaultIndexName this relation coll fld
      (merge_meta (default empty_meta (r_meta relation)) (r_collection relation)
                  (r_field relation) (truthy (r_related_collection relation)))
      (set_log ((log w ++ [PreColumnChange]) ++ [Transaction]) w)
    = (Ok tt, w2)
    ∧ same_database w2 w'.
Proof.
  rewrite (createOne_run getDefaultIndexName this w relation coll fld validated). simpl.
  destruct (transaction _ _) as [r w2] eqn:Htx. simpl. intros [= -> <-].
  apply transaction_Ok_inv in Htx. simpl in Htx. exists w2. split; [exact Htx | done].
Qed.

Lemma createOne_payload_names :
  r_collection relation = Some coll ∧ r_field relation = Some fld.
Proof.
  apply createOne_validate_inv in validated as (_ & _ & Hcoll & Hfld & _).
  apply truthy_Some in Hcoll as [Hcoll _]. apply truthy_Some in Hfld as [Hfld _]. done.
Qed.

Lemma createOne_row (w' : World) :
  createOne getDefaultIndexName this relation w = (Ok tt, w') →
  directus_relations w'
  = directus_relations w ++
      [{| id := default (fresh_id (directus_relations w)) (r_meta relation ≫= p_id);
          many_collection := coll; many_field := fld;
          one_collection := truthy (r_related_collection relation);
          one_field := default None (r_meta relation ≫= p_one_field);
          one_collection_field := default None (r_meta relation ≫= p_one_collection_field);
          one_allowed_collections :=
            default None (r_meta relation ≫= p_one_allowed_collections);
          junction_field := default None (r_meta relation ≫= p_junction_field);
          sort_field := default None (r_meta relation ≫= p_sort_field) |}].
Proof.
  intros (w2 & Htx & _ & <- & _)%createOne_Ok_inv.
  destruct createOne_payload_names as [Hcoll Hfld].
  unfold createOne_transaction in Htx.
  apply bind_Ok_inv in Htx as ([] & w1 & Halter & Hinsert).
  assert (Hrows : directus_relations w1 = directus_relations w).
  { destruct (truthy (r_related_collection relation)) as [related|].
    - pose proof (alterTable_directus_relations coll
                    (createOne_alter getDefaultIndexName this relation coll fld related)
                    (set_log ((log w ++ [PreColumnChange]) ++ [Transaction]) w)) as Hkeep.
      rewrite Halter in Hkeep. exact Hkeep.
    - by injection Halter as <-. }
  apply items_createOne_Ok in Hinsert as (mc & mf & Hmc & Hmf & ->).
  simpl in Hmc, Hmf. rewrite Hcoll in Hmc. rewrite Hfld in Hmf.
  injection Hmc as <-. injection Hmf as <-.
  simpl. rewrite Hrows. by destruct (r_meta relation).
Qed.

(** X10: the metadata row a successful [createOne] writes is the one
    row added to directus_relations, and its many_collection,
    many_field and one_collection are the payload's collection, field
    and (truthy) related collection, whatever the payload's meta says
    about them; the other attributes are the meta's, null when the meta
    leaves them out. *)
Theorem createOne_row_from_payload (w' : World) :
  createOne getDefaultIndexName this relation w = (Ok tt, w') →
  ∃ row,
    directus_relations w' = directus_relations w ++ [row]
    ∧ many_collection row = coll
    ∧ many_field row = fld
    ∧ one_collection row = truthy (r_related_collection relation)
    ∧ one_field row = default None (r_meta relation ≫= p_one_field)
    ∧ one_allowed_collections row
      = default None (r_meta relation ≫= p_one_allowed_collections).
Proof. intros Hrow%createOne_row. eexists. split; [exact Hrow|]. done. Qed.

(** A validated [createOne] whose meta names no id has nothing left
    that can fail: the insert gets a fresh id. *)
Lemma createOne_succeeds :
  r_meta relation ≫= p_id = None →
  (createOne getDefaultIndexName this relation w).1 = Ok tt.
Proof.
  intros Hid. destruct createOne_payload_names as [Hcoll Hfld].
  rewrite (createOne_run getDefaultIndexName this w relation coll fld validated). simpl.
  unfold transaction, createOne_transaction.
  set (w0 := set_log _ (set_log _ w)).
  assert (Halter :
            match truthy (r_related_collection relation) with
            | Some related =>
                alterTable coll (createOne_alter getDefaultIndexName this relation coll fld related)
            | None => mret tt
            end w0 = (Ok tt, w0)) by (by destruct (truthy _)).
  erewrite bind_Ok by exact Halter.
  unfold items_createOne. simpl. rewrite Hcoll, Hfld.
  replace (p_id (default empty_meta (r_meta relation))) with (@None nat)
    by (by destruct (r_meta relation)).
  simpl.
  assert (Hfresh : existsb (λ row, bool_decide (id row = fresh_id (directus_relations w)))
                     (directus_relations w) = false).
  { apply not_true_is_false. intros (row & Hin & Hid')%existsb_exists.
    apply bool_decide_eq_true in Hid'.
    assert (Hle : ∀ rows (r : RelationMeta), In r rows → id r < fresh_id rows).
    { clear. induction rows as [|r0 rows IH]; [done|].
      intros r [<- | Hin]; unfold fresh_id in *; simpl; [lia|].
      specialize (IH r Hin). lia. }
    specialize (Hle _ _ Hin). lia. }
  by rewrite Hfresh.
Qed.

(** X11: [createOne] without a (truthy) related collection never
    touches the schema: foreign keys and column types are as before on
    every outcome; and when the payload's meta names no id, it succeeds
    once validated. *)
Theorem createOne_alias_leaves_schema :
  truthy (r_related_collection relation) = None →
  foreign_keys (createOne getDefaultIndexName this relation w).2 = foreign_keys w
  ∧ column_types (createOne getDefaultIndexName this relation w).2 = column_types w
  ∧ (r_meta relation ≫= p_id = None →
     (createOne getDefaultIndexName this relation w).1 = Ok tt).
Proof.
  intros _. destruct (createOne_schema_untouched getDefaultIndexName this w relation)
    as [Hfks Htypes].
  split_and!; [done..|]. apply createOne_succeeds.
Qed.

(** X12: [createOne] with a related collection runs no schema statement
    either. The change of type and the foreign key to the related
    collection are added to the table builder after the first [await]
    of the [alterTable] callback, when knex has compiled the builder
    and found it empty. So on every outcome the foreign keys and the
    column types are as before, also when [alterType] asks for the
    change to 'int unsigned'; and a validated call whose meta names no
    id succeeds, whatever foreign keys exist: what it leaves is a
    metadata row without a foreign key. *)
Theorem createOne_adds_no_foreign_key (related : string) :
  truthy (r_related_collection relation) = Some related →
  let callback := createOne_alter getDefaultIndexName this relation coll fld related in
  let out := createOne getDefaultIndexName this relation w in
  before_await callback = []
  ∧ foreign_keys out.2 = foreign_keys w
  ∧ column_types out.2 = column_types w
  ∧ (r_meta relation ≫= p_id = None → out.1 = Ok tt)
  ∧ (out.1 = Ok tt →
     ∃ row, directus_relations out.2 = directus_relations w ++ [row]
            ∧ many_collection row = coll ∧ many_field row = fld
            ∧ one_collection row = Some related).
Proof.
  intros Hrelated. simpl.
  destruct (createOne_schema_untouched getDefaultIndexName this w relation) as [Hfks Htypes].
  split_and!; [done..| apply createOne_succeeds |].
  destruct (createOne getDefaultIndexName this relation w) as [r w'] eqn:Hrun. simpl.
  intros ->. apply createOne_row in Hrun. eexists. split; [exact Hrun|]. by rewrite Hrelated.
Qed.

End CreateOneEffects.

Lemma createOne_row_from_payload_witness :
  let this := Fixture.service (Some Fixture.administrator) in
  let meta_payload :=
    {| p_id := None; p_many_collection := Some "comments"; p_many_field := Some "post_id";
       p_one_collection := Some (Some "articles"); p_one_field := Some (Some "edited");
       p_one_collection_field := None; p_one_allowed_collections := None;
       p_junction_field := None; p_sort_field := None |} in
  let relation :=
    {| r_collection := Some "articles"; r_field := Some "editor_id";
       r_related_collection := Some "authors"; r_schema_on_delete := Some "SET NULL";
       r_meta := Some meta_payload |} in
  let out := createOne Fixture.getDefaultIndexName this relation Fixture.world in
  createOne_validate this relation Fixture.world = (Ok ("articles", "editor_id"), Fixture.world)
  ∧ out.1 = Ok tt
  ∧ ∃ row,
      directus_relations out.2 = [Fixture.post_meta; row]
      ∧ many_collection row = "articles"
      ∧ many_field row = "editor_id"
      ∧ one_collection row = Some "authors"
      ∧ one_field row = Some "edited".
Proof.
  intros this meta_payload relation out. subst out.
  assert (Hvalid : createOne_validate this relation Fixture.world
                   = (Ok ("articles", "editor_id"), Fixture.world))
    by (vm_compute; reflexivity).
  destruct (createOne Fixture.getDefaultIndexName this relation Fixture.world)
    as [r w'] eqn:Hrun.
  assert (Hok : r = Ok tt).
  { change r with (r, w').1. rewrite <- Hrun. vm_compute. reflexivity. }
  subst r. split; [exact Hvalid|]. split; [reflexivity|].
  destruct (createOne_row_from_payload Fixture.getDefaultIndexName this Fixture.world
              relation "articles" "editor_id" Hvalid w' Hrun)
    as (row & Hrows & Hmc & Hmf & Hoc & Hof & _).
  exists row. split_and!; [exact Hrows | exact Hmc | exact Hmf | exact Hoc | exact Hof].
Defined.

Lemma createOne_alias_leaves_schema_witness :
  let this := Fixture.service (Some Fixture.administrator) in
  let relation :=
    {| r_collection := Some "articles"; r_field := Some "title";
       r_related_collection := Some ""; r_schema_on_delete := None; r_meta := None |} in
  let out := createOne Fixture.getDefaultIndexName this relation Fixture.world in
  createOne_validate this relation Fixture.world = (Ok ("articles", "title"), Fixture.world)
  ∧ truthy (r_related_collection relation) = None
  ∧ foreign_keys out.2 = foreign_keys Fixture.world
  ∧ column_types out.2 = column_types Fixture.world
  ∧ out.1 = Ok tt.
Proof.
  intros this relation out. subst out.
  assert (Hvalid : createOne_validate this relation Fixture.world
                   = (Ok ("articles", "title"), Fixture.world))
    by (vm_compute; reflexivity).
  split; [exact Hvalid|]. split; [reflexivity|].
  destruct (createOne_alias_leaves_schema Fixture.getDefaultIndexName this Fixture.world
              relation "articles" "title" Hvalid eq_refl) as (Hfks & Htypes & Hok).
  split; [exact Hfks|]. split; [exact Htypes|]. exact (Hok eq_refl).
Defined.

Lemma createOne_adds_no_foreign_key_witness :
  let this := Fixture.service (Some Fixture.administrator) in
  let relation :=
    {| r_collection := Some "articles"; r_field := Some "editor_id";
       r_related_collection := Some "authors"; r_schema_on_delete := Some "SET NULL";
       r_meta := None |} in
  let out := createOne Fixture.getDefaultIndexName this relation Fixture.world in
  createOne_validate this relation Fixture.world = (Ok ("articles", "editor_id"), Fixture.world)
  ∧ alterType this relation = Ok [SpecificTypeAlter "editor_id" "int unsigned"]
  ∧ out.1 = Ok tt
  ∧ foreign_keys out.2 = [Fixture.author_fk; Fixture.post_fk]
  ∧ column_types out.2 = column_types Fixture.world
  ∧ column_types Fixture.world !! ("articles", "editor_id") = Some "int".
Proof.
  intros this relation out. subst out.
  assert (Hvalid : createOne_validate this relation Fixture.world
                   = (Ok ("articles", "editor_id"), Fixture.world))
    by (vm_compute; reflexivity).
  split; [exact Hvalid|]. split; [vm_compute; reflexivity|].
  destruct (createOne_adds_no_foreign_key Fixture.getDefaultIndexName this Fixture.world
              relation "articles" "editor_id" Hvalid "authors" eq_refl)
    as (_ & Hfks & Htypes & Hok & _).
  split; [exact (Hok eq_refl)|]. split; [exact Hfks|]. split; [exact Htypes|].
  vm_compute. reflexivity.
Defined.

(** ** updateOne, step by step *)

Section UpdateOneEffects.

Context (getDefaultIndexName : string → string → string → string).
Context (this : RelationsService) (w : World).
Context (coll fld : string) (relation : PartialRelation) (existingRelation : Relation).
Hypothesis existing : existing_relation this coll fld w = (Ok existingRelation, w).

(** The transaction of [updateOne] on a relation with a related
    collection and a recorded foreign key: the drop, then the write to
    directus_relations. *)
Lemma updateOne_transaction_run (related : string) (existingSchema : ForeignKey)
    (w0 : World) :
  truthy (related_collection existingRelation) = Some related →
  schema existingRelation = Some existingSchema →
  let name :=
    default (getDefaultIndexName "foreign" coll fld)
            (truthy (constraint_name existingSchema)) in
  let step :=
    match r_meta relation with
    | Some relation_meta =>
        match meta existingRelation with
        | Some existingMeta => items_updateOne (id existingMeta) relation_meta
        | None =>
            items_createOne
              (merge_meta relation_meta (r_collection relation) (r_field relation)
                          (Some related))
        end
    | None => mret tt
    end in
  updateOne_transaction getDefaultIndexName this coll fld relation existingRelation w0
  = if existsb (has_constraint coll name) (foreign_keys w0)
    then step (set_foreign_keys
                 (List.filter (λ fk, negb (has_constraint coll name fk)) (foreign_keys w0)) w0)
    else (Throw (DatabaseError "constraint does not exist"), w0).
Proof.
  intros Hrelated Hschema. simpl.
  unfold updateOne_transaction, alterTable, updateOne_alter.
  rewrite Hrelated, Hschema. simpl.
  repeat (progress (unfold mbind, M_bind, mret, M_ret; simpl)).
  by destruct (existsb _ _).
Qed.

(** X13: [updateOne] drops the foreign key and does not create it
    again. For a relation with a related collection and a recorded
    foreign key, the drop of the recorded constraint (of the default
    name when none is recorded) is the one statement the [alterTable]
    callback adds before its first [await]; the change of type and the
    new foreign key come after it, when knex has compiled the builder.
    So no column type changes; a call that succeeds leaves the foreign
    keys without that constraint and adds none; a payload without meta
    succeeds whenever the constraint is there; and when it is not
    there the call raises and the database is as before. *)
Theorem updateOne_drops_the_foreign_key (related : string) (existingSchema : ForeignKey) :
  truthy (related_collection existingRelation) = Some related →
  schema existingRelation = Some existingSchema →
  let name :=
    default (getDefaultIndexName "foreign" coll fld)
            (truthy (constraint_name existingSchema)) in
  let present := existsb (has_constraint coll name) (foreign_keys w) in
  let out := updateOne getDefaultIndexName this coll fld relation w in
  before_await (updateOne_alter getDefaultIndexName this coll fld relation existingRelation
                  related)
  = [DropForeign fld name]
  ∧ column_types out.2 = column_types w
  ∧ (out.1 = Ok tt →
     present = true
     ∧ foreign_keys out.2
       = List.filter (λ fk, negb (has_constraint coll name fk)) (foreign_keys w))
  ∧ (present = true → r_meta relation = None → out.1 = Ok tt)
  ∧ (present = false →
     out.1 = Throw (DatabaseError "constraint does not exist") ∧ same_database w out.2).
Proof.
  intros Hrelated Hschema. simpl.
  split; [unfold updateOne_alter; by rewrite Hschema|].
  rewrite (updateOne_run getDefaultIndexName this w coll fld relation existingRelation
             existing). simpl.
  unfold transaction. set (w0 := set_log _ (set_log _ w)).
  rewrite (updateOne_transaction_run related existingSchema w0 Hrelated Hschema).
  change (foreign_keys w0) with (foreign_keys w).
  pose proof (meta_step_schema relation existingRelation) as Hstep. simpl in Hstep.
  rewrite Hrelated in Hstep.
  destruct (existsb _ (foreign_keys w)) eqn:Hpresent.
  - specialize (Hstep (set_foreign_keys
      (List.filter
         (λ fk, negb (has_constraint coll
                        (default (getDefaultIndexName "foreign" coll fld)
                                 (truthy (constraint_name existingSchema))) fk))
         (foreign_keys w)) w0)).
    destruct Hstep as [Hfks Htypes]. split_and!; [| |intros _ Hnone; by rewrite Hnone|done].
    all: match type of Hfks with
         | foreign_keys (?r).2 = _ => destruct r as [[[]|e] w2]
         end; simpl in *; try done.
    rewrite Htypes. by destruct (transactional_ddl w).
  - simpl. split_and!; try done.
    + by destruct (transactional_ddl w).
    + intros _. split; [done|]. unfold same_database. simpl.
      by destruct (transactional_ddl w).
Qed.


End UpdateOneEffects.

Lemma updateOne_drops_the_foreign_key_witness :
  let this := Fixture.service (Some Fixture.administrator) in
  let payload :=
    {| r_collection := Some "comments"; r_field := Some "post_id";
       r_related_collection := Some "articles"; r_schema_on_delete := Some "SET NULL";
       r_meta := None |} in
  let out := updateOne Fixture.getDefaultIndexName this "comments" "post_id" payload
               Fixture.world in
  existing_relation this "comments" "post_id" Fixture.world
  = (Ok Fixture.post_relation, Fixture.world)
  ∧ out.1 = Ok tt
  ∧ foreign_keys Fixture.world = [Fixture.author_fk; Fixture.post_fk]
  ∧ foreign_keys out.2 = [Fixture.author_fk]
  ∧ column_types out.2 = column_types Fixture.world.
Proof.
  intros this payload out. subst out.
  assert (Hexisting : existing_relation this "comments" "post_id" Fixture.world
                      = (Ok Fixture.post_relation, Fixture.world))
    by (vm_compute; reflexivity).
  split; [exact Hexisting|].
  destruct (updateOne_drops_the_foreign_key Fixture.getDefaultIndexName this
              Fixture.world "comments" "post_id" payload Fixture.post_relation Hexisting
              "articles" Fixture.post_fk eq_refl eq_refl)
    as (_ & Htypes & Hdropped & Hok & _).
  assert (Hrun : (updateOne Fixture.getDefaultIndexName this "comments" "post_id" payload
                    Fixture.world).1 = Ok tt)
    by (apply Hok; [vm_compute|]; reflexivity).
  split; [exact Hrun|]. split; [reflexivity|].
  destruct (Hdropped Hrun) as [_ Hfks].
  split; [rewrite Hfks; vm_compute; reflexivity | exact Htypes].
Defined.


Section UpdateOneEdges.

Context (getDefaultIndexName : string → string → string → string).
Context (this : RelationsService) (w : World).
Context (coll fld : string) (relation : PartialRelation) (existingRelation : Relation).
Hypothesis existing : existing_relation this coll fld w = (Ok existingRelation, w).

(** X14: [updateOne] of a relation without a (truthy) related
    collection issues no schema statement: foreign keys and column
    types are as before on every outcome. When that relation has a
    metadata row and the payload carries a meta that names no id, the
    call succeeds and changes one thing: the payload's meta is applied
    to the row with the recorded id, and every other row is as
    before. *)
Theorem updateOne_alias_patches_the_row :
  truthy (related_collection existingRelation) = None →
  let out := updateOne getDefaultIndexName this coll fld relation w in
  foreign_keys out.2 = foreign_keys w
  ∧ column_types out.2 = column_types w
  ∧ (∀ existingMeta relation_meta,
       meta existingRelation = Some existingMeta →
       r_meta relation = Some relation_meta →
       p_id relation_meta = None →
       out.1 = Ok tt
       ∧ directus_relations out.2
         = map (λ row, if bool_decide (id row = id existingMeta)
                       then apply_patch relation_meta row else row)
               (directus_relations w)).
Proof.
  intros Halias. simpl.
  rewrite (updateOne_run getDefaultIndexName this w coll fld relation existingRelation
             existing). simpl.
  unfold transaction, updateOne_transaction. rewrite Halias.
  set (w0 := set_log _ (set_log _ w)).
  erewrite bind_Ok by reflexivity.
  pose proof (meta_step_schema relation existingRelation w0) as Hstep. simpl in Hstep.
  rewrite Halias in Hstep. destruct Hstep as [Hfks Htypes].
  split_and!.
  3:{ intros existingMeta relation_meta -> -> Hid. unfold items_updateOne. by rewrite Hid. }
  all: match type of Hfks with
       | foreign_keys (?r).2 = _ => destruct r as [[[]|e] w2]
       end; simpl in *; try done.
  - rewrite Hfks. by destruct (transactional_ddl w).
  - rewrite Htypes. by destruct (transactional_ddl w).
Qed.

(** X15: an [updateOne] whose payload has no meta writes nothing to
    directus_relations, on any outcome: whatever it does to the foreign
    key, a schema-only relation stays without a metadata row. *)
Theorem updateOne_without_meta_keeps_rows :
  r_meta relation = None →
  directus_relations (updateOne getDefaultIndexName this coll fld relation w).2
  = directus_relations w.
Proof.
  intros Hnone.
  rewrite (updateOne_run getDefaultIndexName this w coll fld relation existingRelation
             existing). simpl.
  unfold transaction.
  set (w0 := set_log _ _).
  destruct (updateOne_transaction _ _ _ _ _ _ w0) as [[[]|e] w2] eqn:Htx; simpl; [|done].
  unfold updateOne_transaction in Htx. rewrite Hnone in Htx.
  apply bind_Ok_inv in Htx as ([] & w1 & Halter & [= <-]).
  destruct (truthy (related_collection existingRelation)) as [related|].
  - pose proof (alterTable_directus_relations coll
                  (updateOne_alter getDefaultIndexName this coll fld relation
                     existingRelation related) w0) as Hkeep.
    rewrite Halter in Hkeep. exact Hkeep.
  - by injection Halter as <-.
Qed.

End UpdateOneEdges.

Lemma updateOne_alias_patches_the_row_witness :
  let this :=
    {| accountability := Some Fixture.administrator;
       this_schema :=
         Fixture.snapshot
           [("articles", ("id", [("id", Some "int unsigned"); ("item", Some "int")]))]
           [Fixture.item_relation];
       preColumnChange_result := false |} in
  let item_meta :=
    {| id := 2; many_collection := "articles"; many_field := "item";
       one_collection := None; one_field := Some "articles";
       one_collection_field := Some "collection";
       one_allowed_collections := Some ["articles"];
       junction_field := None; sort_field := None |} in
  let w := set_directus_relations [Fixture.post_meta; item_meta] Fixture.world in
  let payload :=
    {| r_collection := None; r_field := None; r_related_collection := None;
       r_schema_on_delete := None;
       r_meta := Some {| p_id := None; p_many_collection := None; p_many_field := None;
                         p_one_collection := None; p_one_field := None;
                         p_one_collection_field := None;
                         p_one_allowed_collections := Some (Some ["articles"; "authors"]);
                         p_junction_field := None; p_sort_field := Some (Some "sort") |} |} in
  let out := updateOne Fixture.getDefaultIndexName this "articles" "item" payload w in
  existing_relation this "articles" "item" w = (Ok Fixture.item_relation, w)
  ∧ out.1 = Ok tt
  ∧ foreign_keys out.2 = foreign_keys w
  ∧ map (λ row, (id row, one_allowed_collections row, sort_field row))
        (directus_relations out.2)
    = [(1, None, None); (2, Some ["articles"; "authors"], Some "sort")].
Proof.
  intros this item_meta w payload out. subst out.
  assert (Hexisting : existing_relation this "articles" "item" w
                      = (Ok Fixture.item_relation, w))
    by (vm_compute; reflexivity).
  split; [exact Hexisting|].
  destruct (updateOne_alias_patches_the_row Fixture.getDefaultIndexName this w "articles"
              "item" payload Fixture.item_relation Hexisting eq_refl)
    as (Hfks & _ & Hrow).
  destruct (Hrow item_meta _ eq_refl eq_refl eq_refl) as [Hok Hrows].
  split; [exact Hok|]. split; [exact Hfks|].
  rewrite Hrows. vm_compute. reflexivity.
Defined.

Lemma updateOne_without_meta_keeps_rows_witness :
  let this := Fixture.service (Some Fixture.administrator) in
  let payload :=
    {| r_collection := Some "articles"; r_field := Some "author_id";
       r_related_collection := Some "authors"; r_schema_on_delete := Some "CASCADE";
       r_meta := None |} in
  existing_relation this "articles" "author_id" Fixture.world
  = (Ok Fixture.author_relation, Fixture.world)
  ∧ directus_relations
      (updateOne Fixture.getDefaultIndexName this "articles" "author_id" payload
         Fixture.world).2
    = [Fixture.post_meta].
Proof.
  intros this payload.
  assert (Hexisting : existing_relation this "articles" "author_id" Fixture.world
                      = (Ok Fixture.author_relation, Fixture.world))
    by (vm_compute; reflexivity).
  split; [exact Hexisting|].
  exact (updateOne_without_meta_keeps_rows Fixture.getDefaultIndexName this Fixture.world
           "articles" "author_id" payload Fixture.author_relation Hexisting eq_refl).
Defined.

(** ** deleteOne: what it leaves alone *)

Section DeleteOneFrame.

Context (this : RelationsService) (w : World).
Context (coll fld : string) (existingRelation : Relation).
Hypothesis existing : existing_relation this coll fld w = (Ok existingRelation, w).

Lemma deleteOne_database :
  let out := deleteOne this coll fld w in
  let recorded := truthy (schema existingRelation ≫= constraint_name) in
  column_types out.2 = column_types w
  ∧ (foreign_keys out.2 = foreign_keys w
     ∨ ∃ name, recorded = Some name
               ∧ foreign_keys out.2
                 = List.filter
                     (λ fk, negb (has_constraint (collection existingRelation) name fk))
                     (foreign_keys w))
  ∧ (directus_relations out.2 = directus_relations w
     ∨ directus_relations out.2
       = List.filter (λ row, negb (bool_decide (many_collection row = coll)
                                   && bool_decide (many_field row = fld)))
                     (directus_relations w)).
Proof.
  simpl. rewrite (deleteOne_run this w coll fld existingRelation existing). simpl.
  unfold transaction. set (w0 := set_log _ (set_log _ w)).
  pose proof (deleteOne_transaction_run coll fld existingRelation w0) as Hrun.
  simpl in Hrun.
  destruct (truthy (schema existingRelation ≫= constraint_name)) as [name|].
  - case_bool_decide.
    + destruct (existsb _ _); rewrite Hrun; simpl.
      * split; [done|]. split; [right; eauto|].
        destruct (meta existingRelation); [by right | by left].
      * destruct (transactional_ddl w); split_and!; done || by left.
    + rewrite Hrun. simpl. split; [done|]. split; [by left|].
      destruct (meta existingRelation); [by right | by left].
  - rewrite Hrun. simpl. split; [done|]. split; [by left|].
    destruct (meta existingRelation); [by right | by left].
Qed.

(** X17: [deleteOne] adds nothing and removes nothing else: the foreign
    keys and the metadata rows it leaves are sublists of those it
    found, every foreign key other than the recorded constraint of the
    relation's own collection stays, every metadata row of another
    (collection, field) pair stays, and no column type changes. *)
Theorem deleteOne_removes_nothing_else :
  let out := deleteOne this coll fld w in
  column_types out.2 = column_types w
  ∧ foreign_keys out.2 `sublist_of` foreign_keys w
  ∧ directus_relations out.2 `sublist_of` directus_relations w
  ∧ (∀ fk, fk ∈ foreign_keys w →
       (table fk ≠ collection existingRelation
        ∨ constraint_name fk ≠ truthy (schema existingRelation ≫= constraint_name)) →
       fk ∈ foreign_keys out.2)
  ∧ (∀ row, row ∈ directus_relations w →
       (many_collection row ≠ coll ∨ many_field row ≠ fld) →
       row ∈ directus_relations out.2).
Proof.
  destruct deleteOne_database as (Htypes & Hfks & Hrows). simpl in *.
  split; [done|]. split_and!.
  - destruct Hfks as [-> | (name & _ & ->)]; [done | apply filter_sublist].
  - destruct Hrows as [-> | ->]; [done | apply filter_sublist].
  - intros fk Hin Hother. destruct Hfks as [-> | (name & Hname & ->)]; [done|].
    apply elem_of_filter. split; [done|].
    apply negb_true_iff, not_true_is_false. unfold has_constraint.
    rewrite andb_true_iff, !bool_decide_eq_true. intros [Htable Hconstraint].
    destruct Hother as [Hother | Hother]; [done|]. by rewrite Hname in Hother.
  - intros row Hin Hother. destruct Hrows as [-> | ->]; [done|].
    apply elem_of_filter. split; [done|].
    apply negb_true_iff, not_true_is_false.
    rewrite andb_true_iff, !bool_decide_eq_true. naive_solver.
Qed.

End DeleteOneFrame.

Lemma deleteOne_removes_nothing_else_witness :
  let this := Fixture.service (Some Fixture.administrator) in
  let out := deleteOne this "comments" "post_id" Fixture.world in
  existing_relation this "comments" "post_id" Fixture.world
  = (Ok Fixture.post_relation, Fixture.world)
  ∧ Fixture.author_fk ∈ foreign_keys out.2
  ∧ column_types out.2 = column_types Fixture.world.
Proof.
  intros this out. subst out.
  assert (Hexisting : existing_relation this "comments" "post_id" Fixture.world
                      = (Ok Fixture.post_relation, Fixture.world))
    by (vm_compute; reflexivity).
  split; [exact Hexisting|].
  destruct (deleteOne_removes_nothing_else this Fixture.world "comments" "post_id"
              Fixture.post_relation Hexisting) as (Htypes & _ & _ & Hfks & _).
  split; [|exact Htypes].
  apply Hfks; [left | left; discriminate].
Defined.

(** ** alterType, when a lookup fails *)

(** X18: [alterType] raises when, and only when, the schema snapshot has
    no field under the relation's collection and field names or no
    primary key field for its related collection; the error is a
    TypeError, and nothing is added to the table builder. Otherwise it
    adds at most one statement. *)
Theorem alterType_missing_field (this : RelationsService) (relation : PartialRelation) :
  (alterType this relation = Throw TypeError
   ↔ getField (this_schema this) (key (r_collection relation)) (key (r_field relation)) = None
     ∨ getPrimaryKeyField (this_schema this) (key (r_related_collection relation)) = None)
  ∧ (∀ e, alterType this relation = Throw e → e = TypeError)
  ∧ (∀ ops, alterType this relation = Ok ops → length ops ≤ 1).
Proof.
  unfold alterType.
  destruct (getField _ _ _) as [m2oField|]; [|naive_solver].
  destruct (getPrimaryKeyField _ _) as [relatedField|]; [|naive_solver].
  destruct (_ && _); split_and!; try naive_solver; intros ops [= <-]; simpl; lia.
Qed.

Lemma alterType_missing_field_witness :
  let this := Fixture.service (Some Fixture.administrator) in
  let relation :=
    {| r_collection := Some "articles"; r_field := Some "author_id";
       r_related_collection := Some "writers"; r_schema_on_delete := None;
       r_meta := None |} in
  getPrimaryKeyField (this_schema this) "writers" = None
  ∧ alterType this relation = Throw TypeError.
Proof.
  intros this relation.
  assert (Hpk : getPrimaryKeyField (this_schema this) (key (r_related_collection relation))
                = None) by (vm_compute; reflexivity).
  split; [exact Hpk|].
  destruct (alterType_missing_field this relation) as ([_ Hthrow] & _ & _).
  apply Hthrow. right. exact Hpk.
Defined.

(** ** createOne, then readOne *)

Lemma find_none_ {A} (p : A → bool) (l : list A) :
  (∀ x, x ∈ l → p x = false) → List.find p l = None.
Proof.
  induction l as [|x l IH]; simpl; [done|]. intros H.
  rewrite (H x) by left. apply IH. intros y Hy. apply H. by right.
Qed.

Section RoundTrip.

Context (getAllowedFields : option Accountability → string → gmap string (list string)).
Context (stitchRelations : list RelationMeta → list ForeignKey → list Relation).
Context (getDefaultIndexName : string → string → string → string).
Context (this : RelationsService) (w w' : World).
Context (relation : PartialRelation) (coll fld related : string).
Hypothesis validated : createOne_validate this relation w = (Ok (coll, fld), w).
Hypothesis has_related : truthy (r_related_collection relation) = Some related.
Hypothesis created : createOne getDefaultIndexName this relation w = (Ok tt, w').
Hypothesis no_row :
  ∀ row, row ∈ directus_relations w →
         ¬ (many_collection row = coll ∧ many_field row = fld).
Hypothesis no_foreign_key :
  ∀ fk, fk ∈ foreign_keys w → ¬ (table fk = coll ∧ column fk = fld).

(** X19: [createOne], then [readOne]: when [createOne] with a related
    collection succeeds on a store that had neither a metadata row nor
    a foreign key for the (collection, field) pair, the store has the
    new metadata row and still no foreign key for the pair, and a
    [readOne] of the pair hands the stitcher the metadata row and no
    foreign key: the relation is read back from its metadata alone. *)
Theorem createOne_then_readOne_no_schema :
  ∃ row,
    directus_relations w' = directus_relations w ++ [row]
    ∧ foreign_keys w' = foreign_keys w
    ∧ many_collection row = coll ∧ many_field row = fld
    ∧ one_collection row = Some related
    ∧ ∀ reader,
        readOne_results getAllowedFields stitchRelations reader coll fld w'
        = filterForbidden getAllowedFields reader (stitchRelations [row] []).
Proof.
  pose proof (createOne_row getDefaultIndexName this w relation coll fld validated w' created)
    as Hrows.
  pose proof (createOne_schema_untouched getDefaultIndexName this w relation) as [Hfks _].
  rewrite created in Hfks. simpl in Hfks.
  apply createOne_validate_inv in validated as (_ & _ & [_ Hcoll]%truthy_Some & _).
  eexists. split; [exact Hrows|]. split; [exact Hfks|]. simpl.
  split_and!; [done..|].
  intros reader. unfold readOne_results, readByQuery_field, foreignKeys. simpl.
  rewrite bool_decide_eq_false_2 by done. rewrite Hrows, Hfks, !filter_app_.
  rewrite (filter_none _ (directus_relations w)).
  2:{ intros row Hin. apply not_true_is_false.
      rewrite andb_true_iff, !bool_decide_eq_true. by apply no_row. }
  simpl. rewrite !bool_decide_eq_true_2 by done. simpl.
  rewrite find_none_; [by rewrite has_related|].
  intros fk [Hin Htable%bool_decide_eq_true]%elem_of_filter.
  apply bool_decide_eq_false. intros Hcolumn. by apply (no_foreign_key fk).
Qed.

End RoundTrip.

Lemma createOne_then_readOne_no_schema_witness :
  let this := Fixture.service (Some Fixture.administrator) in
  let relation :=
    {| r_collection := Some "articles"; r_field := Some "editor_id";
       r_related_collection := Some "authors"; r_schema_on_delete := Some "SET NULL";
       r_meta := None |} in
  let out := createOne Fixture.getDefaultIndexName this relation Fixture.world in
  createOne_validate this relation Fixture.world = (Ok ("articles", "editor_id"), Fixture.world)
  ∧ out.1 = Ok tt
  ∧ (∃ row,
       many_collection row = "articles" ∧ one_collection row = Some "authors"
       ∧ readOne_results Fixture.getAllowedFields Fixture.stitchRelations this
           "articles" "editor_id" out.2
         = filterForbidden Fixture.getAllowedFields this (Fixture.stitchRelations [row] []))
  ∧ map schema (readOne_results Fixture.getAllowedFields Fixture.stitchRelations this
                  "articles" "editor_id" out.2)
    = [None].
Proof.
  intros this relation out. subst out.
  assert (Hvalid : createOne_validate this relation Fixture.world
                   = (Ok ("articles", "editor_id"), Fixture.world))
    by (vm_compute; reflexivity).
  destruct (createOne Fixture.getDefaultIndexName this relation Fixture.world)
    as [r w'] eqn:Hrun.
  assert (Hok : r = Ok tt).
  { change r with (r, w').1. rewrite <- Hrun. vm_compute. reflexivity. }
  subst r. split; [exact Hvalid|]. split; [reflexivity|].
  split.
  - destruct (createOne_then_readOne_no_schema Fixture.getAllowedFields
                Fixture.stitchRelations Fixture.getDefaultIndexName this Fixture.world w'
                relation "articles" "editor_id" "authors" Hvalid eq_refl Hrun)
      as (row & _ & _ & Hmc & _ & Hrelated & Hread).
    + intros row0 Hin [Hc _]. apply list_elem_of_In in Hin.
      destruct Hin as [<- | []]. discriminate Hc.
    + intros fk0 Hin [Hc Hf]. apply list_elem_of_In in Hin.
      destruct Hin as [<- | [<- | []]]; [discriminate Hf | discriminate Hc].
    + exists row. split; [exact Hmc|]. split; [exact Hrelated|]. exact (Hread this).
  - change w' with (Ok tt, w').2. rewrite <- Hrun. vm_compute. reflexivity.
Defined.
